(** * share/ipld/nmt.go: NMT nodes as IPLD nodes

    A shallow embedding of [share/ipld/nmt.go] of celestia-node: the block
    classifier [decodeBlock], the node adapters [nmtNode] and [nmtLeafNode],
    the CID codec [CidFromNamespacedSha256] / [NamespacedSha256FromCID],
    the sampling translator [Translate] and the entry point [GetNode].

    Conventions.
    - A Go [[]byte] that is only read is modelled by its contents, a
      [list byte].  The data of a block, which the node methods reslice,
      is a [buffer]: its elements and the bytes behind them up to its
      capacity.  [Copy] is the one function whose contract is about
      storage, and it is modelled over a store of backing arrays (module
      [mem]).
    - A Go function that returns [(T, error)] returns a [result T]; a Go
      function that can panic returns an [outcome].
    - Go [int] and [uint64] values are [Z]; the code does no arithmetic on
      them beyond comparisons, so no wrap-around arises.
    - The packages that the file imports (go-varint, go-multihash, go-cid,
      go-block-format, go-ipld-format, [errors], [math/rand]) are third-party
      code: the modules below model the functions the file calls, byte for
      byte where bytes are produced, after the libraries' own sources.
      [appconsts.ShareSize], the random source and the debug check of the
      block constructor are parameters. *)

From Stdlib Require Import ZArith List Lia.
From Stdlib Require Import Strings.String Strings.Byte Numbers.DecimalString.
From stdpp Require Import base option list gmap.

Local Open Scope Z_scope.

(** ** Go values *)

Abbreviation bytes := (list byte).

(** [len(s)] as a Go [int]. *)
Definition len {A : Type} (s : list A) : Z := Z.of_nat (length s).

(** The conversion [byte(x)] of an unsigned integer: the low eight bits. *)
Definition byte_of_Z (x : Z) : byte :=
  match Byte.of_N (Z.to_N (x mod 256)) with
  | Some b => b
  | None => x00
  end.

#[global] Instance byte_eq_dec : EqDecision byte := Byte.byte_eq_dec.

(** The conversion [uint64(b)] of a byte. *)
Definition Z_of_byte (b : byte) : Z := Z.of_N (Byte.to_N b).

(** [fmt]'s [%v] of an integer. *)
Definition itoa (z : Z) : string := NilZero.string_of_int (Z.to_int z).

(** ** github.com/multiformats/go-varint *)

Module varint.

Inductive err : Type := ErrOverflow | ErrUnderflow | ErrNotMinimal.

(** [PutUvarint]: seven bits a byte, least significant group first, the high
    bit set on every byte but the last.  A [uint64] takes at most ten bytes,
    which bounds the loop. *)
Fixpoint PutUvarint_loop (fuel : nat) (x : Z) : bytes :=
  match fuel with
  | O => [byte_of_Z x]
  | S fuel' =>
      if 128 <=? x
      then byte_of_Z (Z.lor (x mod 256) 128) :: PutUvarint_loop fuel' (Z.shiftr x 7)
      else [byte_of_Z x]
  end.

Definition PutUvarint (x : Z) : bytes := PutUvarint_loop 9 x.

Definition UvarintSize (x : Z) : Z := len (PutUvarint x).

Definition MaxLenUvarint63 : Z := 9.

(** [FromUvarint buf]: the value, the number of bytes read, and the error;
    on an error the first two are zero, as in the library. *)
Fixpoint FromUvarint_loop (buf : bytes) (i x s : Z) : Z * Z * option err :=
  match buf with
  | [] => (0, 0, Some ErrUnderflow)
  | b :: rest =>
      let b := Z_of_byte b in
      if ((i =? 8) && (128 <=? b)) || (MaxLenUvarint63 <=? i)
      then (0, 0, Some ErrOverflow)
      else if b <? 128
      then if (b =? 0) && (0 <? s)
           then (0, 0, Some ErrNotMinimal)
           else (Z.lor x (Z.shiftl b s), i + 1, None)
      else FromUvarint_loop rest (i + 1) (Z.lor x (Z.shiftl (Z.land b 127) s)) (s + 7)
  end.

Definition FromUvarint (buf : bytes) : Z * Z * option err :=
  FromUvarint_loop buf 0 0 0.

End varint.

(** ** github.com/multiformats/go-multihash *)

Module mh.

(** [Encode buf code]: the code and the digest length as uvarints, then the
    digest.  Its error return is a legacy of the library and always nil. *)
Definition Encode (buf : bytes) (code : Z) : bytes :=
  varint.PutUvarint code ++ varint.PutUvarint (len buf) ++ buf.

Record DecodedMultihash : Type := {
  Code : Z;
  Length : Z;
  Digest : bytes
}.

Inductive err : Type :=
| ErrTooShort
| ErrVarint (e : varint.err)
| ErrInconsistentLen.

(** [Decode]: reads the code and the length and checks that the rest is a
    digest of that length. *)
Definition Decode (buf : bytes) : DecodedMultihash + err :=
  if len buf <? 2 then inr ErrTooShort
  else
    match varint.FromUvarint buf with
    | (_, _, Some e) => inr (ErrVarint e)
    | (code, n1, None) =>
        let buf1 := skipn (Z.to_nat n1) buf in
        match varint.FromUvarint buf1 with
        | (_, _, Some e) => inr (ErrVarint e)
        | (length, n2, None) =>
            let buf2 := skipn (Z.to_nat n2) buf1 in
            if len buf2 =? length
            then inl {| Code := code; Length := length; Digest := buf2 |}
            else inr ErrInconsistentLen
        end
    end.

End mh.

(** ** github.com/ipfs/go-cid *)

Module cid.

(** A [Cid] is its binary form. *)
Record Cid : Type := mkCid { str : bytes }.

Definition Undef : Cid := mkCid [].

Definition DagProtobuf : Z := 112.

(** [NewCidV1 codecType mhash]: the version byte, the codec as a uvarint,
    the multihash. *)
Definition NewCidV1 (codecType : Z) (mhash : bytes) : Cid :=
  mkCid (byte_of_Z 1 :: varint.PutUvarint codecType ++ mhash).

(** A version-0 identifier is a bare sha2-256 multihash: 34 bytes that
    start with 0x12 0x20. *)
Definition Version (c : Cid) : Z :=
  match str c with
  | b0 :: b1 :: _ =>
      if (len (str c) =? 34) && (Z_of_byte b0 =? 18) && (Z_of_byte b1 =? 32)
      then 0 else 1
  | _ => 1
  end.

(** [Type]: the codec. *)
Definition Type_ (c : Cid) : Z :=
  if Version c =? 0 then DagProtobuf
  else
    let '(_, n, _) := varint.FromUvarint (str c) in
    let '(codec, _, _) := varint.FromUvarint (skipn (Z.to_nat n) (str c)) in
    codec.

(** [Hash]: the multihash, what follows the version and the codec. *)
Definition Hash (c : Cid) : bytes :=
  if Version c =? 0 then str c
  else
    let '(_, n1, _) := varint.FromUvarint (str c) in
    let '(_, n2, _) := varint.FromUvarint (skipn (Z.to_nat n1) (str c)) in
    skipn (Z.to_nat (n1 + n2)) (str c).

End cid.

(** ** Errors

    Go errors are messages; [errors.New] and a [fmt.Errorf] without [%w]
    build one from its text.  The block getter is a collaborator and may
    return go-ipld-format's [ErrNotFound], as a value or behind a pointer,
    bare or wrapped by [fmt.Errorf("...: %w", err)]. *)

Inductive error : Type :=
| errors_New (msg : string)
| ErrNotFound (c : cid.Cid)        (* ipld.ErrNotFound{Cid: c} *)
| ErrNotFoundPtr (c : cid.Cid)     (* &ipld.ErrNotFound{Cid: c} *)
| Wrap (msg : string) (cause : error).

Inductive result (A : Type) : Type :=
| Ok (a : A)
| Err (e : error).
Arguments Ok {A} a.
Arguments Err {A} e.

(** [errors.As(err, &errNotFound)] for [var errNotFound *ipld.ErrNotFound]:
    the first error of the chain whose type is [*ipld.ErrNotFound]. *)
Fixpoint errors_As_ErrNotFoundPtr (e : error) : option cid.Cid :=
  match e with
  | ErrNotFoundPtr c => Some c
  | Wrap _ cause => errors_As_ErrNotFoundPtr cause
  | errors_New _ | ErrNotFound _ => None
  end.

(** [ipld.IsNotFound(err)], that is [errors.Is(err, ipld.ErrNotFound{})]:
    some error of the chain is an [ErrNotFound] (its [Is] method is
    promoted to the pointer type). *)
Fixpoint IsNotFound (e : error) : bool :=
  match e with
  | ErrNotFound _ | ErrNotFoundPtr _ => true
  | Wrap _ cause => IsNotFound cause
  | errors_New _ => false
  end.

(** ** Panics *)

Inductive panic : Type :=
| IndexOutOfRange (i n : Z)        (* runtime error: index out of range [i] with length n *)
| SliceOutOfRange (i n : Z)        (* runtime error: slice bounds out of range *)
| PanicMsg (msg : string)          (* panic(msg) *)
| MalformedHash (e : error)        (* panic("malformed hash: <e>, codec: <name>") *)
| WrongHashForBlock (c : cid.Cid). (* panic("wrong hash for block, cid: <c>") *)

Inductive outcome (A : Type) : Type :=
| Ret (a : A)
| Panic (p : panic).
Arguments Ret {A} a.
Arguments Panic {A} p.

Definition obind {A B : Type} (m : outcome A) (k : A -> outcome B) : outcome B :=
  match m with
  | Ret a => k a
  | Panic p => Panic p
  end.

Notation "'do' x <- m ; k" := (obind m (fun x => k))
  (at level 10, x name, m at level 100, k at level 200).

(** [s[i]] *)
Definition index {A : Type} (s : list A) (i : Z) : outcome A :=
  if (i <? 0) || (len s <=? i) then Panic (IndexOutOfRange i (len s))
  else match nth_error s (Z.to_nat i) with
       | Some a => Ret a
       | None => Panic (IndexOutOfRange i (len s))
       end.

(** [s[lo:]], the elements of the result: the bound is checked against
    the length. *)
Definition slice_from {A : Type} (s : list A) (lo : Z) : outcome (list A) :=
  if (lo <? 0) || (len s <? lo) then Panic (SliceOutOfRange lo (len s))
  else Ret (skipn (Z.to_nat lo) s).

(** A byte slice that is resliced: its elements and, behind them, the
    bytes of its backing array up to its capacity. *)
Record buffer : Type := mkBuffer {
  elems : bytes;
  room : bytes
}.

Definition cap (s : buffer) : Z := len (elems s) + len (room s).

(** A slice whose capacity is its length. *)
Definition of_bytes (b : bytes) : buffer := mkBuffer b [].

(** [s[:hi]]: the bound is checked against the capacity, and the result
    may reach behind the elements of [s]. *)
Definition reslice_to (s : buffer) (hi : Z) : outcome buffer :=
  if (hi <? 0) || (cap s <? hi) then Panic (SliceOutOfRange hi (cap s))
  else Ret (mkBuffer (firstn (Z.to_nat hi) (elems s ++ room s))
                     (skipn (Z.to_nat hi) (elems s ++ room s))).

(** [s[lo:]]: the bound is checked against the length, and the capacity
    goes on to the end of the array. *)
Definition reslice_from (s : buffer) (lo : Z) : outcome buffer :=
  if (lo <? 0) || (len (elems s) <? lo) then Panic (SliceOutOfRange lo (len (elems s)))
  else Ret (mkBuffer (skipn (Z.to_nat lo) (elems s)) (room s)).

(** ** Byte slices in memory

    A slice is a window on a backing array; the store maps each array to
    its contents.  [make] allocates a fresh zeroed array, [copy] moves
    [min(len(dst), len(src))] bytes, [set] is [s[i] = b]. *)

Module mem.

Record slice : Type := mkSlice {
  arr : positive;
  off : nat;
  slen : nat;
  scap : nat
}.

Abbreviation store := (gmap positive bytes).

Definition load (st : store) (s : slice) : bytes :=
  match st !! arr s with
  | Some a => take (slen s) (drop (off s) a)
  | None => []
  end.

(** The window of [s] lies inside an allocated array. *)
Definition valid (st : store) (s : slice) : Prop :=
  exists a, st !! arr s = Some a /\ (off s + slen s <= length a)%nat.

Definition make (n : nat) (st : store) : slice * store :=
  let l := fresh (dom st) in
  (mkSlice l 0 n n, <[l := replicate n x00]> st).

Definition copy (dst src : slice) (st : store) : Z * store :=
  let n := Nat.min (slen dst) (slen src) in
  let moved := take n (load st src) in
  (Z.of_nat n,
   match st !! arr dst with
   | Some a =>
       <[arr dst := take (off dst) a ++ moved ++ drop (off dst + n) a]> st
   | None => st
   end).

Definition set (s : slice) (i : Z) (b : byte) (st : store) : outcome store :=
  if (i <? 0) || (Z.of_nat (slen s) <=? i)
  then Panic (IndexOutOfRange i (Z.of_nat (slen s)))
  else match st !! arr s with
       | Some a => Ret (<[arr s := <[(off s + Z.to_nat i)%nat := b]> a]> st)
       | None => Ret st
       end.

End mem.

(** ** github.com/ipfs/go-block-format, go-ipld-format, celestia-app/pkg/da *)

Module blocks.

(** A [BasicBlock]: an identifier and the data it names.  [B] is the
    representation of the data: a [buffer], a slice in memory, or the
    bare bytes where only they are compared. *)
Record Block (B : Type) : Type := mkBlock {
  Cid : cid.Cid;
  RawData : B
}.
Arguments mkBlock {B} _ _.
Arguments Cid {B} _.
Arguments RawData {B} _.

End blocks.

Module format.

Record Link : Type := mkLink {
  Name : string;
  Size : Z;
  Cid : cid.Cid
}.

Record NodeStat : Type := mkNodeStat {
  NumLinks : Z;
  BlockSize : Z;
  LinksSize : Z;
  DataSize : Z;
  CumulativeSize : Z
}.

End format.

Module da.

Record DataAvailabilityHeader : Type := mkDAH {
  RowsRoots : list bytes;
  ColumnRoots : list bytes
}.

End da.

(** ** share/ipld/nmt.go *)

(** The constants.  [appconsts.NamespaceSize] is 8 (the multihash is named
    [sha256Namespace8Flagged] after it) and [sha256.Size] is 32. *)
Definition nmtCodec : Z := 0x7700.
Definition sha256Namespace8Flagged : Z := 0x7701.
Definition NamespaceSize : Z := 8.
Definition sha256_Size : Z := 32.
Definition nmtHashSize : Z := 2 * NamespaceSize + sha256_Size.
Definition cidPrefixSize : Z := 4.

(** The error values of this file, under the names the design gives them. *)
Definition MalformedBlock : error :=
  errors_New "ipld: wrong sized data carried in block".
Definition InvalidPathInner : error := errors_New "invalid path for inner node".
Definition InvalidPathLeaf : error := errors_New "invalid path for leaf node".
Definition WasNotALink : error := errors_New "was not a link".
Definition InvalidHashLength (got want : Z) : error :=
  errors_New ("invalid namespaced hash length, got: " ++ itoa got
              ++ ", want: " ++ itoa want)%string.
Definition TreeNotImplemented : panic := PanicMsg "proper tree not yet implemented".

(** [type nmtNode struct { blocks.Block }] and
    [type nmtLeafNode struct { nmtNode }]. *)
Record nmtNode (B : Type) : Type := mkNode { Block : blocks.Block B }.
Arguments mkNode {B} _.
Arguments Block {B} _.

Record nmtLeafNode (B : Type) : Type := mkLeaf { node : nmtNode B }.
Arguments mkLeaf {B} _.
Arguments node {B} _.

(** An [ipld.Node] of this file is one of the two. *)
Inductive Node (B : Type) : Type :=
| of_nmtNode (n : nmtNode B)
| of_nmtLeafNode (l : nmtLeafNode B).
Arguments of_nmtNode {B} n.
Arguments of_nmtLeafNode {B} l.

(** The [interface{}] that [Resolve] returns holds an [*ipld.Link]. *)
Inductive value : Type :=
| LinkRef (l : format.Link).

Definition Cid {B : Type} (n : nmtNode B) : cid.Cid := blocks.Cid (Block n).
Definition RawData {B : Type} (n : nmtNode B) : B := blocks.RawData (Block n).

(** [CidFromNamespacedSha256] *)
Definition CidFromNamespacedSha256 (namespacedHash : bytes) : result cid.Cid :=
  let got := len namespacedHash in
  let want := nmtHashSize in
  if negb (got =? want) then Err (InvalidHashLength got want)
  else
    let buf := mh.Encode namespacedHash sha256Namespace8Flagged in
    Ok (cid.NewCidV1 nmtCodec buf).

(** [MustCidFromNamespacedSha256] *)
Definition MustCidFromNamespacedSha256 (hash : bytes) : outcome cid.Cid :=
  match CidFromNamespacedSha256 hash with
  | Err e => Panic (MalformedHash e)
  | Ok cidFromHash => Ret cidFromHash
  end.

(** [NamespacedSha256FromCID] *)
Definition NamespacedSha256FromCID (c : cid.Cid) : outcome bytes :=
  slice_from (cid.Hash c) cidPrefixSize.

(** [nmtNode.left] and [nmtNode.right] *)
Definition nmtNode_left (n : nmtNode buffer) : outcome buffer :=
  reslice_to (RawData n) nmtHashSize.

Definition nmtNode_right (n : nmtNode buffer) : outcome buffer :=
  reslice_from (RawData n) nmtHashSize.

Definition link_to (c : cid.Cid) : format.Link :=
  format.mkLink "" 0 c.

(** [nmtNode.Resolve] *)
Definition nmtNode_Resolve (n : nmtNode buffer) (path : list string)
  : outcome (result (value * list string)) :=
  do p0 <- index path 0;
  if String.eqb p0 "0" then
    do l <- nmtNode_left n;
    match CidFromNamespacedSha256 (elems l) with
    | Err e => Ret (Err e)
    | Ok c => do rest <- slice_from path 1; Ret (Ok (LinkRef (link_to c), rest))
    end
  else if String.eqb p0 "1" then
    do r <- nmtNode_right n;
    match CidFromNamespacedSha256 (elems r) with
    | Err e => Ret (Err e)
    | Ok c => do rest <- slice_from path 1; Ret (Ok (LinkRef (link_to c), rest))
    end
  else Ret (Err InvalidPathInner).

(** [nmtNode.Tree] *)
Definition nmtNode_Tree (n : nmtNode buffer) (path : string) (depth : Z)
  : outcome (list string) :=
  if negb (String.eqb path "") || negb (depth =? -1)
  then Panic TreeNotImplemented
  else Ret ["0"%string; "1"%string].

(** [nmtNode.ResolveLink] *)
Definition nmtNode_ResolveLink (n : nmtNode buffer) (path : list string)
  : outcome (result (format.Link * list string)) :=
  do r <- nmtNode_Resolve n path;
  match r with
  | Err e => Ret (Err e)
  | Ok (LinkRef lnk, rest) => Ret (Ok (lnk, rest))
  end.

(** [nmtNode.Links] *)
Definition nmtNode_Links (n : nmtNode buffer) : outcome (list format.Link) :=
  do l <- nmtNode_left n;
  do leftCid <- MustCidFromNamespacedSha256 (elems l);
  do r <- nmtNode_right n;
  do rightCid <- MustCidFromNamespacedSha256 (elems r);
  Ret [link_to leftCid; link_to rightCid].

(** [nmtNode.Stat] and [nmtNode.Size] *)
Definition nmtNode_Stat (n : nmtNode buffer) : result format.NodeStat :=
  Ok (format.mkNodeStat 0 0 0 0 0).

Definition nmtNode_Size (n : nmtNode buffer) : result Z := Ok 0.

(** [nmtLeafNode.Resolve], [nmtLeafNode.Tree] and [nmtLeafNode.Links]; the
    other methods of a leaf are those of the embedded [nmtNode]. *)
Definition nmtLeafNode_Resolve (l : nmtLeafNode buffer) (path : list string)
  : outcome (result (value * list string)) :=
  Ret (Err InvalidPathLeaf).

Definition nmtLeafNode_Tree (l : nmtLeafNode buffer) (_path : string) (_depth : Z)
  : outcome (list string) :=
  Ret [].

Definition nmtLeafNode_Links (l : nmtLeafNode buffer) : outcome (list format.Link) :=
  Ret [].

(** The methods of [ipld.Node], dispatched on the dynamic type. *)
Definition Resolve (nd : Node buffer) (path : list string)
  : outcome (result (value * list string)) :=
  match nd with
  | of_nmtNode n => nmtNode_Resolve n path
  | of_nmtLeafNode l => nmtLeafNode_Resolve l path
  end.

Definition Tree (nd : Node buffer) (path : string) (depth : Z) : outcome (list string) :=
  match nd with
  | of_nmtNode n => nmtNode_Tree n path depth
  | of_nmtLeafNode l => nmtLeafNode_Tree l path depth
  end.

Definition Links (nd : Node buffer) : outcome (list format.Link) :=
  match nd with
  | of_nmtNode n => nmtNode_Links n
  | of_nmtLeafNode l => nmtLeafNode_Links l
  end.

Definition ResolveLink (nd : Node buffer) (path : list string)
  : outcome (result (format.Link * list string)) :=
  match nd with
  | of_nmtNode n => nmtNode_ResolveLink n path
  | of_nmtLeafNode l => nmtNode_ResolveLink (node l) path
  end.

Section ipld.

(** [appconsts.ShareSize], a constant of celestia-app. *)
Variable ShareSize : Z.

(** The process-wide source of [math/rand]: [Intn n] draws from it and
    leaves it in a new state. *)
Variable Rand : Type.
Variable Intn : Z -> Rand -> Z * Rand.

(** go-ipfs-util's [Debug] flag and [c.Prefix().Sum(data)], the identifier
    that the hasher registered for [c]'s multihash code gives [data]. *)
Variable Debug : bool.
Variable Sum : cid.Cid -> bytes -> result cid.Cid.

(** [decodeBlock] *)
Definition decodeBlock (block : blocks.Block buffer) : result (Node buffer) :=
  let innerNodeSize := nmtHashSize * 2 in
  let leafNodeSize := NamespaceSize + ShareSize in
  let n := len (elems (blocks.RawData block)) in
  if n =? innerNodeSize then Ok (of_nmtNode (mkNode block))
  else if n =? leafNodeSize then Ok (of_nmtLeafNode (mkLeaf (mkNode block)))
  else Err MalformedBlock.

(** [GetNode]; the getter is what [bGetter.GetBlock(ctx, root)] returns. *)
Definition GetNode (bGetter : cid.Cid -> result (blocks.Block buffer)) (root : cid.Cid)
  : result (Node buffer) :=
  match bGetter root with
  | Err err =>
      match errors_As_ErrNotFoundPtr err with
      | Some c => Err (ErrNotFoundPtr c)
      | None => Err err
      end
  | Ok block => decodeBlock block
  end.

(** [Translate] *)
Definition Translate (dah : da.DataAvailabilityHeader) (row col : Z) (g : Rand)
  : outcome (cid.Cid * Z) * Rand :=
  let '(r, g') := Intn 2 g in
  (if r =? 0 then
     do root <- index (da.ColumnRoots dah) col;
     do c <- MustCidFromNamespacedSha256 root;
     Ret (c, row)
   else
     do root <- index (da.RowsRoots dah) row;
     do c <- MustCidFromNamespacedSha256 root;
     Ret (c, col),
   g').

(** [blocks.NewBlockWithCid]: with [Debug] set it checks the identifier
    against the data. *)
Definition NewBlockWithCid (data : mem.slice) (c : cid.Cid) (st : mem.store)
  : result (blocks.Block mem.slice) :=
  if Debug then
    match Sum c (mem.load st data) with
    | Err e => Err e
    | Ok chkc =>
        if decide (cid.str chkc = cid.str c) then Ok (blocks.mkBlock c data)
        else Err (errors_New "data did not match given hash")
    end
  else Ok (blocks.mkBlock c data).

(** [newNMTNode] *)
Definition newNMTNode (id : cid.Cid) (data : mem.slice) (st : mem.store)
  : outcome (nmtNode mem.slice) :=
  match NewBlockWithCid data id st with
  | Err _ => Panic (WrongHashForBlock id)
  | Ok b => Ret (mkNode b)
  end.

(** [newNMTLeafNode] *)
Definition newNMTLeafNode (id : cid.Cid) (data : mem.slice) (st : mem.store)
  : outcome (nmtLeafNode mem.slice) :=
  do n <- newNMTNode id data st; Ret (mkLeaf n).

(** [nmtNode.Copy] *)
Definition nmtNode_Copy (n : nmtNode mem.slice) (st : mem.store)
  : outcome (Node mem.slice) * mem.store :=
  let '(d, st1) := mem.make (mem.slen (RawData n)) st in
  let '(_, st2) := mem.copy d (RawData n) st1 in
  (do n' <- newNMTNode (Cid n) d st2; Ret (of_nmtNode n'), st2).

(** [Copy] of an [ipld.Node]: a leaf has the method of its embedded
    [nmtNode]. *)
Definition Copy (nd : Node mem.slice) (st : mem.store)
  : outcome (Node mem.slice) * mem.store :=
  match nd with
  | of_nmtNode n => nmtNode_Copy n st
  | of_nmtLeafNode l => nmtNode_Copy (node l) st
  end.

(** The node that a node in memory holds: its identifier and the contents
    of its buffer. *)
Definition contents (st : mem.store) (n : nmtNode mem.slice) : nmtNode bytes :=
  mkNode (blocks.mkBlock (Cid n) (mem.load st (RawData n))).

End ipld.

(** ** Auxiliary definitions of the statements below *)

(** The [nmtNode] that a node is or embeds: the receiver of the methods
    that a leaf does not define itself. *)
Definition base {B : Type} (nd : Node B) : nmtNode B :=
  match nd with
  | of_nmtNode n => n
  | of_nmtLeafNode l => node l
  end.

(** The roots of a header are namespaced hashes. *)
Definition roots_sized (dah : da.DataAvailabilityHeader) : Prop :=
  Forall (fun h => len h = nmtHashSize) (da.RowsRoots dah) /\
  Forall (fun h => len h = nmtHashSize) (da.ColumnRoots dah).

(** The multihash header of a 48-byte digest under code 0x7701: the code in
    three bytes, the length in one. *)
Definition mhPrefix : bytes := [x81; xee; x01; x30].

(** The version and the codec 0x7700 of the identifier. *)
Definition cidHeader : bytes := [x01; x80; xee; x01].

(** The all-zero namespaced hash of the design's concrete scenario. *)
Definition zeroHash : bytes := replicate 48 x00.

(** A header of a two by two square and a source that yields a given
    sequence of draws. *)
Definition dah2 : da.DataAvailabilityHeader :=
  da.mkDAH [zeroHash; replicate 48 x01] [replicate 48 x02; replicate 48 x03].

Definition draws (n : Z) (g : list Z) : Z * list Z :=
  match g with
  | [] => (0, [])
  | r :: g' => (r mod n, g')
  end.

(** A store with one array, a leaf over a window of it, and the debug
    check switched off. *)
Definition store1 : mem.store := {[ 1%positive := [x0a; x0b; x0c; x0d; x0e] ]}.

Definition leaf1 : Node mem.slice :=
  of_nmtLeafNode (mkLeaf (mkNode (blocks.mkBlock cid.Undef (mem.mkSlice 1 1 3 4)))).

(** The window of a slice in memory as a [buffer], and the node over it. *)
Definition window (st : mem.store) (s : mem.slice) : buffer :=
  match st !! mem.arr s with
  | Some a =>
      mkBuffer (take (mem.slen s) (drop (mem.off s) a))
               (take (mem.scap s - mem.slen s) (drop (mem.off s + mem.slen s) a))
  | None => mkBuffer [] []
  end.

Definition view (st : mem.store) (n : nmtNode mem.slice) : nmtNode buffer :=
  mkNode (blocks.mkBlock (Cid n) (window st (RawData n))).

(** An inner node over two distinct halves, and a leaf of a 512-byte share. *)
Definition inner1 : nmtNode buffer :=
  mkNode (blocks.mkBlock cid.Undef (of_bytes (replicate 48 x01 ++ replicate 48 x02))).

Definition leaf520 : nmtLeafNode buffer :=
  mkLeaf (mkNode (blocks.mkBlock cid.Undef
                    (of_bytes (replicate 8 x07 ++ replicate 512 x09)))).

(** A node over a buffer of 50 bytes, as [newNMTNode] may build one. *)
Definition short1 : nmtNode buffer :=
  mkNode (blocks.mkBlock cid.Undef (of_bytes (replicate 50 x01))).

(** A node over a buffer of 40 bytes with room for 10 more. *)
Definition roomy1 : nmtNode buffer :=
  mkNode (blocks.mkBlock cid.Undef (mkBuffer (replicate 40 x01) (replicate 10 x02))).

(** A getter that answers every request with the block of [leaf520]. *)
Definition getter1 (c : cid.Cid) : result (blocks.Block buffer) :=
  Ok (Block (node leaf520)).

(** * Properties *)

(** ** Lengths and slicing *)

Lemma len_nonneg {A : Type} (s : list A) : 0 <= len s.
Proof. unfold len. lia. Qed.

Lemma len_app {A : Type} (s t : list A) : len (s ++ t) = len s + len t.
Proof. unfold len. rewrite length_app. lia. Qed.

Lemma len_cons {A : Type} (a : A) (s : list A) : len (a :: s) = 1 + len s.
Proof. unfold len. simpl length. lia. Qed.

Lemma reslice_to_app (p s spare : bytes) (hi : Z) :
  len p = hi -> reslice_to (mkBuffer (p ++ s) spare) hi = Ret (mkBuffer p (s ++ spare)).
Proof.
  intros <-. unfold reslice_to, cap. cbn [elems room]. rewrite len_app.
  pose proof (len_nonneg p). pose proof (len_nonneg s). pose proof (len_nonneg spare).
  destruct (Z.ltb_spec (len p) 0); [lia |].
  destruct (Z.ltb_spec (len p + len s + len spare) (len p)); [lia |].
  simpl. unfold len. rewrite Nat2Z.id, <- app_assoc.
  rewrite take_app_length, drop_app_length. reflexivity.
Qed.

Lemma reslice_from_app (p s spare : bytes) (lo : Z) :
  len p = lo -> reslice_from (mkBuffer (p ++ s) spare) lo = Ret (mkBuffer s spare).
Proof.
  intros <-. unfold reslice_from. cbn [elems room]. rewrite len_app.
  pose proof (len_nonneg p). pose proof (len_nonneg s).
  destruct (Z.ltb_spec (len p) 0); [lia |].
  destruct (Z.ltb_spec (len p + len s) (len p)); [lia |].
  simpl. unfold len. rewrite Nat2Z.id, drop_app_length. reflexivity.
Qed.

Lemma slice_from_app {A : Type} (p s : list A) (lo : Z) :
  len p = lo -> slice_from (p ++ s) lo = Ret s.
Proof.
  intros <-. unfold slice_from. rewrite len_app.
  pose proof (len_nonneg p). pose proof (len_nonneg s).
  destruct (Z.ltb_spec (len p) 0); [lia |].
  destruct (Z.ltb_spec (len p + len s) (len p)); [lia |].
  simpl. unfold len. rewrite Nat2Z.id. f_equal. apply drop_app_length.
Qed.

Lemma index_head {A : Type} (a : A) (s : list A) : index (a :: s) 0 = Ret a.
Proof.
  unfold index. rewrite len_cons. pose proof (len_nonneg s).
  destruct (Z.leb_spec (1 + len s) 0); [lia | reflexivity].
Qed.

Lemma slice_from_tail {A : Type} (a : A) (s : list A) : slice_from (a :: s) 1 = Ret s.
Proof. apply (slice_from_app [a] s). reflexivity. Qed.

Lemma index_in_range {A : Type} (s : list A) (i : Z) :
  0 <= i < len s -> exists a, nth_error s (Z.to_nat i) = Some a /\ index s i = Ret a.
Proof.
  intros Hi. unfold index.
  destruct (Z.ltb_spec i 0); [lia |].
  destruct (Z.leb_spec (len s) i); [lia |]. simpl.
  destruct (nth_error s (Z.to_nat i)) as [a |] eqn:E.
  - exists a. split; reflexivity.
  - apply nth_error_None in E. unfold len in Hi. lia.
Qed.

(** ** The identifier of a namespaced hash *)

Lemma mhPrefix_size : len mhPrefix = cidPrefixSize.
Proof. reflexivity. Qed.

Lemma mh_Encode_namespaced (h : bytes) :
  len h = nmtHashSize -> mh.Encode h sha256Namespace8Flagged = mhPrefix ++ h.
Proof. intros H. unfold mh.Encode. rewrite H. reflexivity. Qed.

Lemma CidFromNamespacedSha256_ok (h : bytes) :
  len h = nmtHashSize ->
  CidFromNamespacedSha256 h = Ok (cid.mkCid (cidHeader ++ mhPrefix ++ h)).
Proof.
  intros H. unfold CidFromNamespacedSha256.
  rewrite mh_Encode_namespaced by assumption.
  rewrite H, Z.eqb_refl. reflexivity.
Qed.

Lemma CidFromNamespacedSha256_err (h : bytes) :
  len h <> nmtHashSize ->
  CidFromNamespacedSha256 h = Err (InvalidHashLength (len h) nmtHashSize).
Proof.
  intros H. unfold CidFromNamespacedSha256.
  destruct (Z.eqb_spec (len h) nmtHashSize); [contradiction | reflexivity].
Qed.

Lemma Version_namespaced (m : bytes) : cid.Version (cid.mkCid (cidHeader ++ m)) = 1.
Proof.
  unfold cid.Version, cidHeader. cbn [cid.str app].
  destruct (len (x01 :: _) =? 34); reflexivity.
Qed.

Lemma Hash_namespaced (m : bytes) : cid.Hash (cid.mkCid (cidHeader ++ m)) = m.
Proof. unfold cid.Hash. rewrite Version_namespaced. reflexivity. Qed.

Lemma Type_namespaced (m : bytes) : cid.Type_ (cid.mkCid (cidHeader ++ m)) = nmtCodec.
Proof. unfold cid.Type_. rewrite Version_namespaced. reflexivity. Qed.

Lemma Decode_namespaced (h : bytes) :
  len h = nmtHashSize ->
  mh.Decode (mhPrefix ++ h)
  = inl {| mh.Code := sha256Namespace8Flagged; mh.Length := nmtHashSize; mh.Digest := h |}.
Proof.
  intros H. unfold mh.Decode. rewrite len_app, H.
  change (varint.FromUvarint (mhPrefix ++ h)) with (sha256Namespace8Flagged, 3, @None varint.err).
  cbv iota beta zeta.
  change (skipn (Z.to_nat 3) (mhPrefix ++ h)) with (x30 :: h).
  change (varint.FromUvarint (x30 :: h)) with (nmtHashSize, 1, @None varint.err).
  cbv iota beta zeta.
  change (skipn (Z.to_nat 1) (x30 :: h)) with h.
  rewrite H, Z.eqb_refl. reflexivity.
Qed.

(** C1.  Decoding an encoded namespaced hash gives the hash back: for every
    [h] of [nmtHashSize] (48) bytes, [CidFromNamespacedSha256 h] is an
    identifier [c] with [NamespacedSha256FromCID c = h], and the multihash of
    [c] is [h] behind a prefix of [cidPrefixSize] (4) bytes. *)
Theorem NamespacedSha256FromCID_CidFromNamespacedSha256 (h : bytes) :
  len h = nmtHashSize ->
  exists c,
    CidFromNamespacedSha256 h = Ok c /\
    NamespacedSha256FromCID c = Ret h /\
    exists prefix, len prefix = cidPrefixSize /\ cid.Hash c = prefix ++ h.
Proof.
  intros H. eexists. split; [apply CidFromNamespacedSha256_ok, H |].
  unfold NamespacedSha256FromCID. rewrite Hash_namespaced. split.
  - apply slice_from_app, mhPrefix_size.
  - exists mhPrefix. split; [apply mhPrefix_size | reflexivity].
Qed.

Lemma NamespacedSha256FromCID_CidFromNamespacedSha256_witness :
  exists c,
    CidFromNamespacedSha256 zeroHash = Ok c /\
    NamespacedSha256FromCID c = Ret zeroHash /\
    exists prefix, len prefix = cidPrefixSize /\ cid.Hash c = prefix ++ zeroHash.
Proof.
  apply (NamespacedSha256FromCID_CidFromNamespacedSha256 zeroHash). reflexivity.
Defined.

Example InvalidHashLength_text :
  InvalidHashLength 47 48
  = errors_New "invalid namespaced hash length, got: 47, want: 48".
Proof. reflexivity. Qed.

(** C4.  [CidFromNamespacedSha256] rejects every hash whose length is not
    [nmtHashSize], with the error that names the length it got and the
    length it wants; and it accepts every hash of that length, returning a
    version-1 identifier with codec [nmtCodec] whose multihash has code
    [sha256Namespace8Flagged] and the hash as digest. *)
Theorem CidFromNamespacedSha256_spec (h : bytes) :
  (len h <> nmtHashSize ->
   CidFromNamespacedSha256 h = Err (InvalidHashLength (len h) nmtHashSize)) /\
  (len h = nmtHashSize ->
   exists c,
     CidFromNamespacedSha256 h = Ok c /\
     cid.Version c = 1 /\
     cid.Type_ c = nmtCodec /\
     mh.Decode (cid.Hash c)
     = inl {| mh.Code := sha256Namespace8Flagged;
              mh.Length := nmtHashSize;
              mh.Digest := h |}).
Proof.
  split.
  - apply CidFromNamespacedSha256_err.
  - intros H. eexists. split; [apply CidFromNamespacedSha256_ok, H |].
    rewrite Version_namespaced, Type_namespaced, Hash_namespaced.
    repeat split. apply Decode_namespaced, H.
Qed.

(** ** Resolution in inner nodes and leaves *)

Lemma nmtNode_left_app (c : cid.Cid) (l r spare : bytes) :
  len l = nmtHashSize ->
  nmtNode_left (mkNode (blocks.mkBlock c (mkBuffer (l ++ r) spare)))
  = Ret (mkBuffer l (r ++ spare)).
Proof. intros H. apply reslice_to_app, H. Qed.

Lemma nmtNode_right_app (c : cid.Cid) (l r spare : bytes) :
  len l = nmtHashSize ->
  nmtNode_right (mkNode (blocks.mkBlock c (mkBuffer (l ++ r) spare)))
  = Ret (mkBuffer r spare).
Proof. intros H. apply reslice_from_app, H. Qed.

Lemma nmtNode_Resolve_cons (n : nmtNode buffer) (s : string) (rest : list string) :
  nmtNode_Resolve n (s :: rest)
  = if String.eqb s "0" then
      do l <- nmtNode_left n;
      match CidFromNamespacedSha256 (elems l) with
      | Err e => Ret (Err e)
      | Ok c => Ret (Ok (LinkRef (link_to c), rest))
      end
    else if String.eqb s "1" then
      do r <- nmtNode_right n;
      match CidFromNamespacedSha256 (elems r) with
      | Err e => Ret (Err e)
      | Ok c => Ret (Ok (LinkRef (link_to c), rest))
      end
    else Ret (Err InvalidPathInner).
Proof.
  unfold nmtNode_Resolve. rewrite index_head. cbn [obind].
  rewrite slice_from_tail. reflexivity.
Qed.

(** C3.  An inner node over [left ++ right], each half of [nmtHashSize]
    bytes, whatever the capacity of the buffer, resolves a path that
    starts with "0" to the link to [CidFromNamespacedSha256 left] and the
    rest of the path, a path that starts with "1" to the link to
    [CidFromNamespacedSha256 right] and the rest, and fails with the
    invalid-path error on any other first segment. *)
Theorem Resolve_inner (id : cid.Cid) (l r spare : bytes) (rest : list string) :
  len l = nmtHashSize ->
  len r = nmtHashSize ->
  let nd := of_nmtNode (mkNode (blocks.mkBlock id (mkBuffer (l ++ r) spare))) in
  (exists cl,
     CidFromNamespacedSha256 l = Ok cl /\
     Resolve nd ("0"%string :: rest) = Ret (Ok (LinkRef (link_to cl), rest))) /\
  (exists cr,
     CidFromNamespacedSha256 r = Ok cr /\
     Resolve nd ("1"%string :: rest) = Ret (Ok (LinkRef (link_to cr), rest))) /\
  (forall s : string,
     s <> "0"%string -> s <> "1"%string ->
     Resolve nd (s :: rest) = Ret (Err InvalidPathInner)).
Proof.
  intros Hl Hr nd. subst nd. cbn [Resolve]. repeat split.
  - eexists. split; [apply CidFromNamespacedSha256_ok, Hl |].
    rewrite nmtNode_Resolve_cons. cbn [String.eqb Ascii.eqb Bool.eqb].
    rewrite nmtNode_left_app by assumption. cbn [obind elems].
    rewrite CidFromNamespacedSha256_ok by assumption. reflexivity.
  - eexists. split; [apply CidFromNamespacedSha256_ok, Hr |].
    rewrite nmtNode_Resolve_cons. cbn [String.eqb Ascii.eqb Bool.eqb].
    rewrite nmtNode_right_app by assumption. cbn [obind elems].
    rewrite CidFromNamespacedSha256_ok by assumption. reflexivity.
  - intros s H0 H1. rewrite nmtNode_Resolve_cons.
    destruct (String.eqb_spec s "0"); [contradiction |].
    destruct (String.eqb_spec s "1"); [contradiction |]. reflexivity.
Qed.

Lemma Resolve_inner_witness :
  let nd := of_nmtNode (mkNode (blocks.mkBlock cid.Undef
                                  (mkBuffer (zeroHash ++ zeroHash) [x07]))) in
  (exists cl,
     CidFromNamespacedSha256 zeroHash = Ok cl /\
     Resolve nd ["0"%string; "1"%string]
     = Ret (Ok (LinkRef (link_to cl), ["1"%string]))) /\
  (exists cr,
     CidFromNamespacedSha256 zeroHash = Ok cr /\
     Resolve nd ["1"%string; "1"%string]
     = Ret (Ok (LinkRef (link_to cr), ["1"%string]))) /\
  (forall s : string,
     s <> "0"%string -> s <> "1"%string ->
     Resolve nd [s; "1"%string] = Ret (Err InvalidPathInner)).
Proof.
  apply (Resolve_inner cid.Undef zeroHash zeroHash [x07] ["1"%string]); reflexivity.
Defined.

Example Resolve_inner_two :
  Resolve (of_nmtNode (mkNode (blocks.mkBlock cid.Undef (of_bytes (zeroHash ++ zeroHash)))))
          ["2"%string]
  = Ret (Err InvalidPathInner).
Proof. reflexivity. Qed.

(** C5.  A leaf resolves no path: on every non-empty path [Resolve] fails
    with the invalid-path error of leaves, and [Links] is empty. *)
Theorem Resolve_Links_leaf (l : nmtLeafNode buffer) (path : list string) :
  path <> [] ->
  Resolve (of_nmtLeafNode l) path = Ret (Err InvalidPathLeaf) /\
  Links (of_nmtLeafNode l) = Ret [].
Proof. intros _. split; reflexivity. Qed.

Lemma Resolve_Links_leaf_witness :
  let l := mkLeaf (mkNode (blocks.mkBlock cid.Undef (of_bytes (zeroHash ++ zeroHash)))) in
  Resolve (of_nmtLeafNode l) ["0"%string] = Ret (Err InvalidPathLeaf) /\
  Links (of_nmtLeafNode l) = Ret [].
Proof.
  apply (Resolve_Links_leaf
           (mkLeaf (mkNode (blocks.mkBlock cid.Undef (of_bytes (zeroHash ++ zeroHash)))))
           ["0"%string]).
  discriminate.
Defined.

(** C9.  [Tree] of an inner node answers the query with the empty path and
    depth -1 with the two child names; on any other path or depth it panics
    with the not-yet-implemented message (it has no error to return).
    [Tree] of a leaf is empty whatever the path and depth. *)
Theorem Tree_spec (n : nmtNode buffer) (l : nmtLeafNode buffer) :
  Tree (of_nmtNode n) "" (-1) = Ret ["0"%string; "1"%string] /\
  (forall (path : string) (depth : Z),
     path <> ""%string \/ depth <> -1 ->
     Tree (of_nmtNode n) path depth = Panic TreeNotImplemented) /\
  (forall (path : string) (depth : Z), Tree (of_nmtLeafNode l) path depth = Ret []).
Proof.
  repeat split.
  intros path depth H. cbn [Tree]. unfold nmtNode_Tree.
  destruct (String.eqb_spec path ""), (Z.eqb_spec depth (-1)); try reflexivity.
  destruct H; contradiction.
Qed.

(** C10.  On the empty path [Resolve] of an inner node does not return the
    invalid-path error: it reads [path[0]] first and panics with an index
    out of range; [Resolve] of a leaf reads no segment and returns its
    invalid-path error on the empty path too. *)
Theorem Resolve_empty_path (n : nmtNode buffer) (l : nmtLeafNode buffer) :
  Resolve (of_nmtNode n) [] = Panic (IndexOutOfRange 0 0) /\
  Resolve (of_nmtNode n) [] <> Ret (Err InvalidPathInner) /\
  Resolve (of_nmtLeafNode l) [] = Ret (Err InvalidPathLeaf).
Proof. repeat split. discriminate. Qed.

(** ** Classification of blocks and retrieval *)

Section classification.

Variable ShareSize : Z.

(** The two sizes are distinct, as the configuration has them; were they
    equal, the first case of the [switch] would take the block. *)
Hypothesis sizes_distinct : NamespaceSize + ShareSize <> nmtHashSize * 2.

(** C2.  [decodeBlock] succeeds exactly on the two sizes: a block of
    [2 * nmtHashSize] bytes is an inner node, a block of
    [NamespaceSize + ShareSize] bytes is a leaf, and a block of any other
    size fails with the wrong-size error. *)
Theorem decodeBlock_spec (block : blocks.Block buffer) :
  let n := len (elems (blocks.RawData block)) in
  (n = nmtHashSize * 2 ->
   decodeBlock ShareSize block = Ok (of_nmtNode (mkNode block))) /\
  (n = NamespaceSize + ShareSize ->
   decodeBlock ShareSize block = Ok (of_nmtLeafNode (mkLeaf (mkNode block)))) /\
  (n <> nmtHashSize * 2 -> n <> NamespaceSize + ShareSize ->
   decodeBlock ShareSize block = Err MalformedBlock) /\
  ((exists nd, decodeBlock ShareSize block = Ok nd) <->
   n = nmtHashSize * 2 \/ n = NamespaceSize + ShareSize).
Proof.
  intros n. subst n. unfold decodeBlock.
  destruct (Z.eqb_spec (len (elems (blocks.RawData block))) (nmtHashSize * 2)) as [Hi | Hi];
    [| destruct (Z.eqb_spec (len (elems (blocks.RawData block))) (NamespaceSize + ShareSize))
         as [Hl | Hl]].
  - repeat split; try congruence; eauto.
  - repeat split; try congruence; eauto.
  - repeat split; try congruence.
    + intros [nd H]. discriminate.
    + intros [H | H]; contradiction.
Qed.

(** C8.  [GetNode] asks the getter.  When the getter fails, [GetNode]
    fails, and with a not-found error exactly when the getter's error is
    one: it returns the [*ipld.ErrNotFound] that [errors.As] finds in the
    chain, and otherwise the getter's error as it is.  When the getter
    succeeds, the block is classified by the size of its data: at
    [2 * nmtHashSize] bytes the result is the inner node over the block,
    at [NamespaceSize + ShareSize] bytes the leaf over it, and at any
    other size the wrong-size error. *)
Theorem GetNode_spec (bGetter : cid.Cid -> result (blocks.Block buffer)) (root : cid.Cid) :
  (forall block,
     bGetter root = Ok block ->
     len (elems (blocks.RawData block)) = nmtHashSize * 2 ->
     GetNode ShareSize bGetter root = Ok (of_nmtNode (mkNode block))) /\
  (forall block,
     bGetter root = Ok block ->
     len (elems (blocks.RawData block)) = NamespaceSize + ShareSize ->
     GetNode ShareSize bGetter root = Ok (of_nmtLeafNode (mkLeaf (mkNode block)))) /\
  (forall block,
     bGetter root = Ok block ->
     len (elems (blocks.RawData block)) <> nmtHashSize * 2 ->
     len (elems (blocks.RawData block)) <> NamespaceSize + ShareSize ->
     GetNode ShareSize bGetter root = Err MalformedBlock) /\
  (forall err c,
     bGetter root = Err err -> errors_As_ErrNotFoundPtr err = Some c ->
     GetNode ShareSize bGetter root = Err (ErrNotFoundPtr c)) /\
  (forall err,
     bGetter root = Err err -> errors_As_ErrNotFoundPtr err = None ->
     GetNode ShareSize bGetter root = Err err) /\
  (forall err,
     bGetter root = Err err ->
     exists e,
       GetNode ShareSize bGetter root = Err e /\ IsNotFound e = IsNotFound err).
Proof.
  unfold GetNode, decodeBlock. repeat split.
  - intros block -> H. rewrite H, Z.eqb_refl. reflexivity.
  - intros block -> H. rewrite H, Z.eqb_refl.
    destruct (Z.eqb_spec (NamespaceSize + ShareSize) (nmtHashSize * 2));
      [contradiction | reflexivity].
  - intros block -> Hi Hl.
    destruct (Z.eqb_spec (len (elems (blocks.RawData block))) (nmtHashSize * 2));
      [contradiction |].
    destruct (Z.eqb_spec (len (elems (blocks.RawData block))) (NamespaceSize + ShareSize));
      [contradiction | reflexivity].
  - intros err c -> ->. reflexivity.
  - intros err -> ->. reflexivity.
  - intros err ->. destruct (errors_As_ErrNotFoundPtr err) as [c |] eqn:E.
    + eexists. split; [reflexivity |]. clear - E.
      induction err; simpl in *; try discriminate; auto.
    + eexists. split; reflexivity.
Qed.

End classification.

Lemma decodeBlock_spec_witness :
  let block := blocks.mkBlock cid.Undef (of_bytes (zeroHash ++ zeroHash)) in
  let n := len (elems (blocks.RawData block)) in
  (n = nmtHashSize * 2 ->
   decodeBlock 512 block = Ok (of_nmtNode (mkNode block))) /\
  (n = NamespaceSize + 512 ->
   decodeBlock 512 block = Ok (of_nmtLeafNode (mkLeaf (mkNode block)))) /\
  (n <> nmtHashSize * 2 -> n <> NamespaceSize + 512 ->
   decodeBlock 512 block = Err MalformedBlock) /\
  ((exists nd, decodeBlock 512 block = Ok nd) <->
   n = nmtHashSize * 2 \/ n = NamespaceSize + 512).
Proof.
  apply (decodeBlock_spec 512). vm_compute. discriminate.
Defined.

Lemma GetNode_spec_witness :
  (forall block,
     getter1 cid.Undef = Ok block ->
     len (elems (blocks.RawData block)) = nmtHashSize * 2 ->
     GetNode 512 getter1 cid.Undef = Ok (of_nmtNode (mkNode block))) /\
  (forall block,
     getter1 cid.Undef = Ok block ->
     len (elems (blocks.RawData block)) = NamespaceSize + 512 ->
     GetNode 512 getter1 cid.Undef = Ok (of_nmtLeafNode (mkLeaf (mkNode block)))) /\
  (forall block,
     getter1 cid.Undef = Ok block ->
     len (elems (blocks.RawData block)) <> nmtHashSize * 2 ->
     len (elems (blocks.RawData block)) <> NamespaceSize + 512 ->
     GetNode 512 getter1 cid.Undef = Err MalformedBlock) /\
  (forall err c,
     getter1 cid.Undef = Err err -> errors_As_ErrNotFoundPtr err = Some c ->
     GetNode 512 getter1 cid.Undef = Err (ErrNotFoundPtr c)) /\
  (forall err,
     getter1 cid.Undef = Err err -> errors_As_ErrNotFoundPtr err = None ->
     GetNode 512 getter1 cid.Undef = Err err) /\
  (forall err,
     getter1 cid.Undef = Err err ->
     exists e,
       GetNode 512 getter1 cid.Undef = Err e /\ IsNotFound e = IsNotFound err).
Proof.
  apply (GetNode_spec 512); vm_compute; discriminate.
Defined.

Example GetNode_inner :
  GetNode 512 (fun c => Ok (blocks.mkBlock c (of_bytes (replicate 96 x00)))) cid.Undef
  = Ok (of_nmtNode (mkNode (blocks.mkBlock cid.Undef (of_bytes (replicate 96 x00))))).
Proof. reflexivity. Qed.

Example GetNode_leaf :
  GetNode 512 getter1 cid.Undef = Ok (of_nmtLeafNode leaf520).
Proof. reflexivity. Qed.

Example GetNode_wrong_size :
  GetNode 512 (fun c => Ok (blocks.mkBlock c (of_bytes (replicate 50 x00)))) cid.Undef
  = Err MalformedBlock.
Proof. reflexivity. Qed.

Example decodeBlock_96 :
  decodeBlock 512 (blocks.mkBlock cid.Undef (of_bytes (replicate 96 x00)))
  = Ok (of_nmtNode (mkNode (blocks.mkBlock cid.Undef (of_bytes (replicate 96 x00))))).
Proof. reflexivity. Qed.

Example decodeBlock_520 :
  decodeBlock 512 (blocks.mkBlock cid.Undef (of_bytes (replicate 520 x00)))
  = Ok (of_nmtLeafNode (mkLeaf (mkNode (blocks.mkBlock cid.Undef
                                          (of_bytes (replicate 520 x00)))))).
Proof. reflexivity. Qed.

Example GetNode_not_found_wrapped :
  GetNode 512 (fun c => Err (Wrap "blockservice" (ErrNotFoundPtr c))) cid.Undef
  = Err (ErrNotFoundPtr cid.Undef).
Proof. reflexivity. Qed.

Example GetNode_not_found_value :
  GetNode 512 (fun c => Err (ErrNotFound c)) cid.Undef = Err (ErrNotFound cid.Undef).
Proof. reflexivity. Qed.

Example GetNode_transport :
  GetNode 512 (fun _ => Err (errors_New "context deadline exceeded")) cid.Undef
  = Err (errors_New "context deadline exceeded").
Proof. reflexivity. Qed.

Example decodeBlock_50 :
  decodeBlock 512 (blocks.mkBlock cid.Undef (of_bytes (replicate 50 x00)))
  = Err MalformedBlock.
Proof. reflexivity. Qed.

(** ** Sampling coordinates *)

Lemma MustCidFromNamespacedSha256_ok (h : bytes) :
  len h = nmtHashSize ->
  exists c, CidFromNamespacedSha256 h = Ok c /\ MustCidFromNamespacedSha256 h = Ret c.
Proof.
  intros H. unfold MustCidFromNamespacedSha256.
  rewrite CidFromNamespacedSha256_ok by assumption. eauto.
Qed.

Lemma root_at (roots : list bytes) (i : Z) :
  Forall (fun h => len h = nmtHashSize) roots ->
  0 <= i < len roots ->
  exists h c,
    nth_error roots (Z.to_nat i) = Some h /\
    CidFromNamespacedSha256 h = Ok c /\
    (do root <- index roots i; MustCidFromNamespacedSha256 root) = Ret c.
Proof.
  intros Hall Hi.
  destruct (index_in_range roots i Hi) as (h & Hnth & Hidx).
  assert (Hlen : len h = nmtHashSize).
  { rewrite Forall_forall in Hall. apply Hall, list_elem_of_In.
    eapply nth_error_In, Hnth. }
  destruct (MustCidFromNamespacedSha256_ok h Hlen) as (c & Hc & Hm).
  exists h, c. rewrite Hidx. cbn [obind]. auto.
Qed.

Section sampling.

Variable Rand : Type.
Variable Intn : Z -> Rand -> Z * Rand.

(** C6.  For a header of namespaced hashes and indices in range,
    [Translate] draws once from the random source and returns one of two
    results and no other: the identifier of the column root at [col] with
    [row] when the draw is 0, the identifier of the row root at [row] with
    [col] otherwise. *)
Theorem Translate_spec (dah : da.DataAvailabilityHeader) (row col : Z) (g : Rand) :
  roots_sized dah ->
  0 <= row < len (da.RowsRoots dah) ->
  0 <= col < len (da.ColumnRoots dah) ->
  exists rowRoot colRoot rowCid colCid,
    nth_error (da.RowsRoots dah) (Z.to_nat row) = Some rowRoot /\
    nth_error (da.ColumnRoots dah) (Z.to_nat col) = Some colRoot /\
    CidFromNamespacedSha256 rowRoot = Ok rowCid /\
    CidFromNamespacedSha256 colRoot = Ok colCid /\
    Translate Rand Intn dah row col g
    = (Ret (if fst (Intn 2 g) =? 0 then (colCid, row) else (rowCid, col)),
       snd (Intn 2 g)) /\
    (fst (Translate Rand Intn dah row col g) = Ret (colCid, row) \/
     fst (Translate Rand Intn dah row col g) = Ret (rowCid, col)).
Proof.
  intros [Hrows Hcols] Hrow Hcol.
  destruct (root_at _ row Hrows Hrow) as (rowRoot & rowCid & Hr1 & Hr2 & Hr3).
  destruct (root_at _ col Hcols Hcol) as (colRoot & colCid & Hc1 & Hc2 & Hc3).
  exists rowRoot, colRoot, rowCid, colCid.
  assert (E : Translate Rand Intn dah row col g
              = (Ret (if fst (Intn 2 g) =? 0 then (colCid, row) else (rowCid, col)),
                 snd (Intn 2 g))).
  { unfold Translate. destruct (Intn 2 g) as [r g']. cbn [fst snd]. f_equal.
    destruct (r =? 0).
    - unfold obind in *. destruct (index (da.ColumnRoots dah) col); [| discriminate].
      rewrite Hc3. reflexivity.
    - unfold obind in *. destruct (index (da.RowsRoots dah) row); [| discriminate].
      rewrite Hr3. reflexivity. }
  repeat split; try assumption.
  rewrite E. cbn [fst]. destruct (fst (Intn 2 g) =? 0); auto.
Qed.

End sampling.

Lemma Translate_spec_witness :
  exists rowRoot colRoot rowCid colCid,
    nth_error (da.RowsRoots dah2) (Z.to_nat 1) = Some rowRoot /\
    nth_error (da.ColumnRoots dah2) (Z.to_nat 0) = Some colRoot /\
    CidFromNamespacedSha256 rowRoot = Ok rowCid /\
    CidFromNamespacedSha256 colRoot = Ok colCid /\
    Translate (list Z) draws dah2 1 0 [1; 0]
    = (Ret (if fst (draws 2 [1; 0]) =? 0 then (colCid, 1) else (rowCid, 0)),
       snd (draws 2 [1; 0])) /\
    (fst (Translate (list Z) draws dah2 1 0 [1; 0]) = Ret (colCid, 1) \/
     fst (Translate (list Z) draws dah2 1 0 [1; 0]) = Ret (rowCid, 0)).
Proof.
  apply (Translate_spec (list Z) draws dah2 1 0 [1; 0]).
  - split; repeat (constructor; [reflexivity |]); constructor.
  - unfold len. simpl. lia.
  - unfold len. simpl. lia.
Defined.

Example Translate_column :
  fst (Translate (list Z) draws dah2 1 0 [0])
  = do c <- MustCidFromNamespacedSha256 (replicate 48 x02); Ret (c, 1).
Proof. reflexivity. Qed.

Example Translate_row :
  fst (Translate (list Z) draws dah2 1 0 [1])
  = do c <- MustCidFromNamespacedSha256 (replicate 48 x01); Ret (c, 0).
Proof. reflexivity. Qed.

(** ** Copies and storage *)

Lemma load_length (st : mem.store) (s : mem.slice) :
  mem.valid st s -> length (mem.load st s) = mem.slen s.
Proof.
  intros (a & Ha & Hb). unfold mem.load. rewrite Ha.
  rewrite length_take, length_drop. lia.
Qed.

Lemma fresh_unallocated (st : mem.store) : st !! fresh (dom st) = None.
Proof. apply not_elem_of_dom, is_fresh. Qed.

Lemma valid_not_fresh (st : mem.store) (s : mem.slice) :
  mem.valid st s -> fresh (dom st) <> mem.arr s.
Proof.
  intros (a & Ha & _) E. rewrite <- E, fresh_unallocated in Ha. discriminate.
Qed.

Lemma load_insert_ne (st : mem.store) (s : mem.slice) (l : positive) (a : bytes) :
  l <> mem.arr s -> mem.load (<[l := a]> st) s = mem.load st s.
Proof. intros H. unfold mem.load. rewrite lookup_insert_ne by assumption. reflexivity. Qed.

Lemma load_insert_whole (st : mem.store) (l : positive) (a : bytes) (n : nat) :
  length a = n -> mem.load (<[l := a]> st) (mem.mkSlice l 0 n n) = a.
Proof.
  intros H. unfold mem.load. cbn [mem.arr mem.off mem.slen].
  rewrite lookup_insert_eq. rewrite drop_0. apply take_ge. lia.
Qed.

(** [make] followed by [copy], as in [nmtNode.Copy]: the new slice holds
    the bytes of the source in an array of its own. *)
Lemma make_copy (st : mem.store) (src : mem.slice) :
  mem.valid st src ->
  let l := fresh (dom st) in
  let d := mem.mkSlice l 0 (mem.slen src) (mem.slen src) in
  let st1 := <[l := replicate (mem.slen src) x00]> st in
  mem.make (mem.slen src) st = (d, st1) /\
  mem.copy d src st1
  = (Z.of_nat (mem.slen src), <[l := mem.load st src]> st1).
Proof.
  intros Hv l d st1. split; [reflexivity |].
  pose proof (valid_not_fresh st src Hv) as Hne. fold l in Hne.
  pose proof (load_length st src Hv) as Hlen.
  unfold mem.copy. cbn [mem.arr mem.off mem.slen d].
  replace (st1 !! l) with (Some (replicate (mem.slen src) x00))
    by (symmetry; apply lookup_insert_eq).
  rewrite Nat.min_id. unfold st1 at 1.
  rewrite load_insert_ne by assumption.
  rewrite (take_ge (mem.load st src)) by lia.
  rewrite take_0, drop_ge by (rewrite length_replicate; lia).
  rewrite app_nil_r. reflexivity.
Qed.

Section copying.

Variable Debug : bool.
Variable Sum : cid.Cid -> bytes -> result cid.Cid.

Lemma newNMTNode_ok (id : cid.Cid) (d : mem.slice) (st : mem.store) :
  (Debug = true -> Sum id (mem.load st d) = Ok id) ->
  newNMTNode Debug Sum id d st = Ret (mkNode (blocks.mkBlock id d)).
Proof.
  intros H. unfold newNMTNode, NewBlockWithCid.
  destruct Debug; [| reflexivity].
  rewrite H by reflexivity.
  destruct (decide (cid.str id = cid.str id)); [reflexivity | contradiction].
Qed.

(** C7.  [Copy] of a node, inner or leaf, whose buffer is allocated (and
    whose identifier passes the check of the block constructor when the
    debug flag is set) returns a node with the same identifier and the same
    bytes, leaves the original as it was, and puts the bytes in an array of
    its own: a write into the buffer of the copy changes that buffer and
    not the original's, and a write into the original's does not change the
    copy's. *)
Theorem Copy_independent (nd : Node mem.slice) (st : mem.store) :
  mem.valid st (RawData (base nd)) ->
  (Debug = true ->
   Sum (Cid (base nd)) (mem.load st (RawData (base nd))) = Ok (Cid (base nd))) ->
  exists n' st',
    Copy Debug Sum nd st = (Ret (of_nmtNode n'), st') /\
    contents st' n' = contents st (base nd) /\
    contents st' (base nd) = contents st (base nd) /\
    mem.arr (RawData n') <> mem.arr (RawData (base nd)) /\
    (forall (i : Z) (b : byte),
       0 <= i < len (mem.load st (RawData (base nd))) ->
       exists st'',
         mem.set (RawData n') i b st' = Ret st'' /\
         mem.load st'' (RawData n')
         = <[Z.to_nat i := b]> (mem.load st' (RawData n')) /\
         mem.load st'' (RawData (base nd)) = mem.load st (RawData (base nd))) /\
    (forall (i : Z) (b : byte) (st'' : mem.store),
       mem.set (RawData (base nd)) i b st' = Ret st'' ->
       mem.load st'' (RawData n') = mem.load st' (RawData n')).
Proof.
  intros Hv Hsum.
  assert (E : Copy Debug Sum nd st = nmtNode_Copy Debug Sum (base nd) st)
    by (destruct nd; reflexivity).
  rewrite E. clear E. generalize dependent (base nd). clear nd. intros n Hv Hsum.
  set (src := RawData n) in *.
  set (l := fresh (dom st)).
  set (d := mem.mkSlice l 0 (mem.slen src) (mem.slen src)).
  set (st1 := <[l := replicate (mem.slen src) x00]> st).
  destruct (make_copy st src Hv) as (Hmake & Hcopy). fold l d st1 in Hmake, Hcopy.
  pose proof (valid_not_fresh st src Hv) as Hne. fold l in Hne.
  pose proof (load_length st src Hv) as Hlen.
  set (st2 := <[l := mem.load st src]> st1) in *.
  assert (Hd : mem.load st2 d = mem.load st src)
    by (apply load_insert_whole, Hlen).
  assert (Hs : mem.load st2 src = mem.load st src).
  { unfold st2. rewrite load_insert_ne by assumption.
    apply load_insert_ne. assumption. }
  exists (mkNode (blocks.mkBlock (Cid n) d)), st2.
  split; [| split; [| split; [| split; [| split]]]].
  - unfold nmtNode_Copy. fold src. rewrite Hmake, Hcopy.
    rewrite newNMTNode_ok; [reflexivity |].
    intros HD. rewrite Hd. apply Hsum, HD.
  - unfold contents. cbn [RawData Cid Block blocks.RawData blocks.Cid].
    rewrite Hd. reflexivity.
  - unfold contents. fold src. rewrite Hs. reflexivity.
  - exact Hne.
  - intros i b Hi. cbn [RawData Block blocks.RawData].
    unfold mem.set. cbn [mem.slen mem.arr mem.off d].
    unfold len in Hi. rewrite Hlen in Hi.
    destruct (Z.ltb_spec i 0); [lia |].
    destruct (Z.leb_spec (Z.of_nat (mem.slen src)) i); [lia |]. cbn [orb].
    unfold st2 at 1. rewrite lookup_insert_eq. eexists. split; [reflexivity |].
    split.
    + rewrite Hd. fold d. apply load_insert_whole.
      rewrite length_insert. exact Hlen.
    + rewrite load_insert_ne by assumption. exact Hs.
  - intros i b st'' Hset. cbn [RawData Block blocks.RawData].
    unfold mem.set in Hset.
    destruct ((i <? 0) || (Z.of_nat (mem.slen src) <=? i)); [discriminate |].
    destruct (st2 !! mem.arr src); inversion Hset; [| reflexivity].
    unfold mem.load. cbn [mem.arr d].
    rewrite lookup_insert_ne by congruence. reflexivity.
Qed.

End copying.

Lemma Copy_independent_witness :
  exists n' st',
    Copy false (fun c _ => Ok c) leaf1 store1 = (Ret (of_nmtNode n'), st') /\
    contents st' n' = contents store1 (base leaf1) /\
    contents st' (base leaf1) = contents store1 (base leaf1) /\
    mem.arr (RawData n') <> mem.arr (RawData (base leaf1)) /\
    (forall (i : Z) (b : byte),
       0 <= i < len (mem.load store1 (RawData (base leaf1))) ->
       exists st'',
         mem.set (RawData n') i b st' = Ret st'' /\
         mem.load st'' (RawData n')
         = <[Z.to_nat i := b]> (mem.load st' (RawData n')) /\
         mem.load st'' (RawData (base leaf1)) = mem.load store1 (RawData (base leaf1))) /\
    (forall (i : Z) (b : byte) (st'' : mem.store),
       mem.set (RawData (base leaf1)) i b st' = Ret st'' ->
       mem.load st'' (RawData n') = mem.load st' (RawData n')).
Proof.
  apply (Copy_independent false (fun c _ => Ok c) leaf1 store1).
  - exists [x0a; x0b; x0c; x0d; x0e]. split; [reflexivity | simpl; lia].
  - discriminate.
Defined.

Example Copy_leaf1 :
  mem.load (snd (Copy false (fun c _ => Ok c) leaf1 store1))
           (mem.mkSlice (fresh (dom store1)) 0 3 3)
  = [x0b; x0c; x0d].
Proof. vm_compute. reflexivity. Qed.

(** * Further properties of the file *)

(** ** The two halves of a buffer *)

Lemma len_take_le {A : Type} (s : list A) (k : Z) :
  0 <= k <= len s -> len (take (Z.to_nat k) s) = k.
Proof. intros H. unfold len in *. rewrite length_take. lia. Qed.

Lemma len_drop_le {A : Type} (s : list A) (k : Z) :
  0 <= k <= len s -> len (drop (Z.to_nat k) s) = len s - k.
Proof. intros H. unfold len in *. rewrite length_drop. lia. Qed.

Lemma nmtHashSize_eq : nmtHashSize = 48.
Proof. reflexivity. Qed.

Lemma nmtNode_left_ge (n : nmtNode buffer) :
  nmtHashSize <= len (elems (RawData n)) ->
  nmtNode_left n
  = Ret (mkBuffer (take (Z.to_nat nmtHashSize) (elems (RawData n)))
                  (drop (Z.to_nat nmtHashSize) (elems (RawData n)) ++ room (RawData n))).
Proof.
  intros H. unfold nmtNode_left, reslice_to, cap. rewrite nmtHashSize_eq in *.
  pose proof (len_nonneg (room (RawData n))).
  destruct (Z.ltb_spec (len (elems (RawData n)) + len (room (RawData n))) 48); [lia |].
  cbn [orb Z.ltb Z.compare].
  rewrite take_app_le, drop_app_le by (unfold len in H; lia). reflexivity.
Qed.

Lemma nmtNode_right_ge (n : nmtNode buffer) :
  nmtHashSize <= len (elems (RawData n)) ->
  nmtNode_right n
  = Ret (mkBuffer (drop (Z.to_nat nmtHashSize) (elems (RawData n))) (room (RawData n))).
Proof.
  intros H. unfold nmtNode_right, reslice_from. rewrite nmtHashSize_eq in *.
  destruct (Z.ltb_spec (len (elems (RawData n))) 48); [lia | reflexivity].
Qed.

(** Below [nmtHashSize] elements [right] panics, and [left] panics or
    reaches into the capacity, as the capacity decides. *)
Lemma nmtNode_right_lt (n : nmtNode buffer) :
  len (elems (RawData n)) < nmtHashSize ->
  nmtNode_right n = Panic (SliceOutOfRange nmtHashSize (len (elems (RawData n)))).
Proof.
  intros H. unfold nmtNode_right, reslice_from. rewrite nmtHashSize_eq in *.
  destruct (Z.ltb_spec (len (elems (RawData n))) 48); [reflexivity | lia].
Qed.

Lemma nmtNode_left_cap_lt (n : nmtNode buffer) :
  cap (RawData n) < nmtHashSize ->
  nmtNode_left n = Panic (SliceOutOfRange nmtHashSize (cap (RawData n))).
Proof.
  intros H. unfold nmtNode_left, reslice_to. rewrite nmtHashSize_eq in *.
  destruct (Z.ltb_spec (cap (RawData n)) 48); [reflexivity | lia].
Qed.

Lemma nmtNode_left_cap_ge (n : nmtNode buffer) :
  nmtHashSize <= cap (RawData n) ->
  exists l, nmtNode_left n = Ret l /\ len (elems l) = nmtHashSize.
Proof.
  intros H. unfold nmtNode_left, reslice_to. rewrite nmtHashSize_eq in *.
  destruct (Z.ltb_spec (cap (RawData n)) 48); [lia |].
  eexists. split; [reflexivity |]. cbn [elems].
  apply len_take_le. rewrite len_app. unfold cap in H. lia.
Qed.

Lemma MustCidFromNamespacedSha256_err (h : bytes) :
  len h <> nmtHashSize ->
  MustCidFromNamespacedSha256 h
  = Panic (MalformedHash (InvalidHashLength (len h) nmtHashSize)).
Proof.
  intros H. unfold MustCidFromNamespacedSha256.
  rewrite CidFromNamespacedSha256_err by assumption. reflexivity.
Qed.

Lemma MustCidFromNamespacedSha256_eq (h : bytes) :
  len h = nmtHashSize ->
  MustCidFromNamespacedSha256 h = Ret (cid.mkCid (cidHeader ++ mhPrefix ++ h)).
Proof.
  intros H. unfold MustCidFromNamespacedSha256.
  rewrite CidFromNamespacedSha256_ok by assumption. reflexivity.
Qed.

(** [Links] of a node whose buffer has at least [nmtHashSize] bytes: the
    left child is encoded, and the rest is up to the right one. *)
Lemma nmtNode_Links_ge (n : nmtNode buffer) :
  nmtHashSize <= len (elems (RawData n)) ->
  nmtNode_Links n
  = do rightCid <- MustCidFromNamespacedSha256 (drop (Z.to_nat nmtHashSize) (elems (RawData n)));
    Ret [link_to (cid.mkCid (cidHeader ++ mhPrefix
                             ++ take (Z.to_nat nmtHashSize) (elems (RawData n))));
         link_to rightCid].
Proof.
  intros H. unfold nmtNode_Links.
  rewrite nmtNode_left_ge by assumption. cbn [obind elems].
  rewrite MustCidFromNamespacedSha256_eq
    by (apply len_take_le; rewrite nmtHashSize_eq in *; lia).
  cbn [obind elems]. rewrite nmtNode_right_ge by assumption. reflexivity.
Qed.

Lemma decode_encoded (h : bytes) :
  NamespacedSha256FromCID (cid.mkCid (cidHeader ++ mhPrefix ++ h)) = Ret h.
Proof.
  unfold NamespacedSha256FromCID. rewrite Hash_namespaced.
  apply slice_from_app, mhPrefix_size.
Qed.

(** [Links] on a buffer of [2 * nmtHashSize] bytes, and the only way for
    [Links] to return. *)
Lemma nmtNode_Links_full (n : nmtNode buffer) :
  len (elems (RawData n)) = nmtHashSize * 2 ->
  nmtNode_Links n
  = Ret [link_to (cid.mkCid (cidHeader ++ mhPrefix
                             ++ take (Z.to_nat nmtHashSize) (elems (RawData n))));
         link_to (cid.mkCid (cidHeader ++ mhPrefix
                             ++ drop (Z.to_nat nmtHashSize) (elems (RawData n))))].
Proof.
  intros H. rewrite nmtHashSize_eq in H.
  rewrite nmtNode_Links_ge by (rewrite nmtHashSize_eq; lia).
  rewrite MustCidFromNamespacedSha256_eq
    by (rewrite len_drop_le; rewrite nmtHashSize_eq; lia).
  reflexivity.
Qed.

Lemma nmtNode_Links_Ret_len (n : nmtNode buffer) (ls : list format.Link) :
  nmtNode_Links n = Ret ls -> len (elems (RawData n)) = nmtHashSize * 2.
Proof.
  destruct (Z.lt_ge_cases (len (elems (RawData n))) nmtHashSize) as [Hlt | Hge].
  - destruct (Z.lt_ge_cases (cap (RawData n)) nmtHashSize) as [Hc | Hc].
    + unfold nmtNode_Links. rewrite nmtNode_left_cap_lt by assumption. discriminate.
    + destruct (nmtNode_left_cap_ge n Hc) as (l & Hl & Hlen).
      unfold nmtNode_Links. rewrite Hl. cbn [obind].
      rewrite MustCidFromNamespacedSha256_eq by assumption. cbn [obind].
      rewrite nmtNode_right_lt by assumption. discriminate.
  - rewrite nmtNode_Links_ge by assumption.
    pose proof (len_drop_le (elems (RawData n)) nmtHashSize) as Hd.
    rewrite nmtHashSize_eq in *.
    destruct (Z.eq_dec (len (elems (RawData n))) (48 * 2)) as [E | E]; [intros _; exact E |].
    rewrite MustCidFromNamespacedSha256_err by (rewrite nmtHashSize_eq; lia).
    discriminate.
Qed.

(** X1.  [Links] of an inner node returns exactly when the buffer has
    [2 * nmtHashSize] bytes; on a buffer of any other size it panics. *)
Theorem nmtNode_Links_returns_iff (n : nmtNode buffer) :
  (exists ls, nmtNode_Links n = Ret ls) <-> len (elems (RawData n)) = nmtHashSize * 2.
Proof.
  split.
  - intros [ls H]. exact (nmtNode_Links_Ret_len n ls H).
  - intros H. rewrite nmtNode_Links_full by assumption. eauto.
Qed.

(** X2.  The two links of an inner node of [2 * nmtHashSize] bytes decode
    to the two halves of its buffer: left then right, and together the
    whole buffer. *)
Theorem nmtNode_Links_decode (n : nmtNode buffer) :
  len (elems (RawData n)) = nmtHashSize * 2 ->
  exists a b hl hr,
    nmtNode_Links n = Ret [a; b] /\
    NamespacedSha256FromCID (format.Cid a) = Ret hl /\
    NamespacedSha256FromCID (format.Cid b) = Ret hr /\
    len hl = nmtHashSize /\ len hr = nmtHashSize /\
    hl ++ hr = elems (RawData n).
Proof.
  intros H. rewrite nmtHashSize_eq in H.
  assert (Hl : len (take (Z.to_nat nmtHashSize) (elems (RawData n))) = nmtHashSize)
    by (apply len_take_le; rewrite nmtHashSize_eq; lia).
  assert (Hr : len (drop (Z.to_nat nmtHashSize) (elems (RawData n))) = nmtHashSize)
    by (rewrite len_drop_le; rewrite nmtHashSize_eq; lia).
  do 2 eexists.
  exists (take (Z.to_nat nmtHashSize) (elems (RawData n))),
         (drop (Z.to_nat nmtHashSize) (elems (RawData n))).
  split.
  - rewrite nmtNode_Links_ge by (rewrite nmtHashSize_eq; lia).
    rewrite MustCidFromNamespacedSha256_eq by assumption. reflexivity.
  - cbn [format.Cid link_to]. rewrite !decode_encoded.
    repeat split; try assumption. apply take_drop.
Qed.

Lemma nmtNode_Links_decode_witness :
  exists a b hl hr,
    nmtNode_Links inner1 = Ret [a; b] /\
    NamespacedSha256FromCID (format.Cid a) = Ret hl /\
    NamespacedSha256FromCID (format.Cid b) = Ret hr /\
    len hl = nmtHashSize /\ len hr = nmtHashSize /\
    hl ++ hr = elems (RawData inner1).
Proof. apply (nmtNode_Links_decode inner1). reflexivity. Defined.

(** ** Links, resolution and the promoted methods *)

Lemma nmtNode_Resolve_0_ge (n : nmtNode buffer) (rest : list string) :
  nmtHashSize <= len (elems (RawData n)) ->
  nmtNode_Resolve n ("0"%string :: rest)
  = Ret (Ok (LinkRef (link_to (cid.mkCid (cidHeader ++ mhPrefix
                                          ++ take (Z.to_nat nmtHashSize) (elems (RawData n))))),
             rest)).
Proof.
  intros H. rewrite nmtNode_Resolve_cons. cbn [String.eqb Ascii.eqb Bool.eqb].
  rewrite nmtNode_left_ge by assumption. cbn [obind elems].
  rewrite CidFromNamespacedSha256_ok
    by (apply len_take_le; rewrite nmtHashSize_eq in *; lia).
  reflexivity.
Qed.

Lemma nmtNode_Resolve_1_ge (n : nmtNode buffer) (rest : list string) :
  nmtHashSize <= len (elems (RawData n)) ->
  nmtNode_Resolve n ("1"%string :: rest)
  = match CidFromNamespacedSha256 (drop (Z.to_nat nmtHashSize) (elems (RawData n))) with
    | Err e => Ret (Err e)
    | Ok c => Ret (Ok (LinkRef (link_to c), rest))
    end.
Proof.
  intros H. rewrite nmtNode_Resolve_cons. cbn [String.eqb Ascii.eqb Bool.eqb].
  rewrite nmtNode_right_ge by assumption. reflexivity.
Qed.

Example Resolve_reaches_capacity :
  nmtNode_Resolve roomy1 ["0"%string]
  = Ret (Ok (LinkRef (link_to (cid.mkCid (cidHeader ++ mhPrefix
                                          ++ replicate 40 x01 ++ replicate 8 x02))),
             [])).
Proof. reflexivity. Qed.

Example Links_short_of_elements :
  nmtNode_Links roomy1 = Panic (SliceOutOfRange 48 40).
Proof. reflexivity. Qed.

(** X3.  Whenever [Links] of an inner node returns, it returns two links,
    and they are the links that [Resolve] gives for the segments "0" and
    "1", in that order, whatever follows the segment. *)
Theorem nmtNode_Links_Resolve (n : nmtNode buffer) (ls : list format.Link)
        (rest : list string) :
  nmtNode_Links n = Ret ls ->
  exists a b,
    ls = [a; b] /\
    nmtNode_Resolve n ("0"%string :: rest) = Ret (Ok (LinkRef a, rest)) /\
    nmtNode_Resolve n ("1"%string :: rest) = Ret (Ok (LinkRef b, rest)).
Proof.
  intros HL.
  assert (H96 : len (elems (RawData n)) = nmtHashSize * 2)
    by (exact (nmtNode_Links_Ret_len n ls HL)).
  assert (Hge : nmtHashSize <= len (elems (RawData n)))
    by (rewrite nmtHashSize_eq in *; lia).
  assert (Hr : len (drop (Z.to_nat nmtHashSize) (elems (RawData n))) = nmtHashSize)
    by (rewrite len_drop_le; rewrite nmtHashSize_eq in *; lia).
  rewrite nmtNode_Links_ge in HL by assumption.
  rewrite MustCidFromNamespacedSha256_eq in HL by assumption.
  cbn [obind] in HL. injection HL as <-.
  do 2 eexists. split; [reflexivity |]. split.
  - apply nmtNode_Resolve_0_ge, Hge.
  - rewrite nmtNode_Resolve_1_ge by assumption.
    rewrite CidFromNamespacedSha256_ok by assumption. reflexivity.
Qed.

Lemma nmtNode_Links_Resolve_witness :
  exists ls a b,
    nmtNode_Links inner1 = Ret ls /\
    ls = [a; b] /\
    nmtNode_Resolve inner1 ["0"%string; "1"%string] = Ret (Ok (LinkRef a, ["1"%string])) /\
    nmtNode_Resolve inner1 ["1"%string; "1"%string] = Ret (Ok (LinkRef b, ["1"%string])).
Proof.
  eexists.
  assert (H : nmtNode_Links inner1
              = Ret [link_to (cid.mkCid (cidHeader ++ mhPrefix ++ replicate 48 x01));
                     link_to (cid.mkCid (cidHeader ++ mhPrefix ++ replicate 48 x02))])
    by reflexivity.
  destruct (nmtNode_Links_Resolve inner1 _ ["1"%string] H) as (a & b & E & H0 & H1).
  exists a, b. auto.
Defined.

(** X4.  On a node whose buffer has at least [nmtHashSize] bytes but not
    twice that, the wrong length of the right half is an error for
    [Resolve] and a panic for [Links]: [Resolve] on "1" returns the
    invalid-length error, [Links] panics with the same error, and
    [Resolve] on "0" still succeeds. *)
Theorem nmtNode_wrong_right_half (n : nmtNode buffer) (rest : list string) :
  nmtHashSize <= len (elems (RawData n)) ->
  len (elems (RawData n)) <> nmtHashSize * 2 ->
  let e := InvalidHashLength (len (elems (RawData n)) - nmtHashSize) nmtHashSize in
  nmtNode_Resolve n ("1"%string :: rest) = Ret (Err e) /\
  nmtNode_Links n = Panic (MalformedHash e) /\
  exists c, nmtNode_Resolve n ("0"%string :: rest) = Ret (Ok (LinkRef (link_to c), rest)).
Proof.
  intros Hge Hne e. subst e.
  assert (Hr : len (drop (Z.to_nat nmtHashSize) (elems (RawData n)))
               = len (elems (RawData n)) - nmtHashSize)
    by (apply len_drop_le; rewrite nmtHashSize_eq in *; lia).
  assert (Hr' : len (drop (Z.to_nat nmtHashSize) (elems (RawData n))) <> nmtHashSize)
    by (rewrite Hr; rewrite nmtHashSize_eq in *; lia).
  split; [| split].
  - rewrite nmtNode_Resolve_1_ge by assumption.
    rewrite CidFromNamespacedSha256_err, Hr by assumption. reflexivity.
  - rewrite nmtNode_Links_ge by assumption.
    rewrite MustCidFromNamespacedSha256_err, Hr by assumption. reflexivity.
  - eexists. apply nmtNode_Resolve_0_ge, Hge.
Qed.

Lemma nmtNode_wrong_right_half_witness :
  let e := InvalidHashLength (len (elems (RawData short1)) - nmtHashSize) nmtHashSize in
  nmtNode_Resolve short1 ["1"%string] = Ret (Err e) /\
  nmtNode_Links short1 = Panic (MalformedHash e) /\
  exists c, nmtNode_Resolve short1 ["0"%string] = Ret (Ok (LinkRef (link_to c), [])).
Proof.
  apply (nmtNode_wrong_right_half short1 []).
  - vm_compute. discriminate.
  - vm_compute. discriminate.
Defined.

(** X5.  [ResolveLink] of a leaf is the method of the embedded [nmtNode],
    and that method calls [nmtNode.Resolve], not the leaf's [Resolve]: on a
    leaf of at least [nmtHashSize] bytes, [ResolveLink] on a path that
    starts with "0" returns a link to the identifier of the first
    [nmtHashSize] bytes of the leaf, while [Resolve] on the same path
    returns the invalid-path error of leaves. *)
Theorem ResolveLink_leaf_promoted (l : nmtLeafNode buffer) (rest : list string) :
  nmtHashSize <= len (elems (RawData (node l))) ->
  exists c,
    CidFromNamespacedSha256 (take (Z.to_nat nmtHashSize) (elems (RawData (node l)))) = Ok c /\
    ResolveLink (of_nmtLeafNode l) ("0"%string :: rest) = Ret (Ok (link_to c, rest)) /\
    Resolve (of_nmtLeafNode l) ("0"%string :: rest) = Ret (Err InvalidPathLeaf).
Proof.
  intros H. eexists. split; [| split].
  - apply CidFromNamespacedSha256_ok, len_take_le. rewrite nmtHashSize_eq in *. lia.
  - cbn [ResolveLink]. unfold nmtNode_ResolveLink.
    rewrite nmtNode_Resolve_0_ge by assumption. reflexivity.
  - reflexivity.
Qed.

Lemma ResolveLink_leaf_promoted_witness :
  exists c,
    CidFromNamespacedSha256 (take (Z.to_nat nmtHashSize) (elems (RawData (node leaf520)))) = Ok c /\
    ResolveLink (of_nmtLeafNode leaf520) ["0"%string] = Ret (Ok (link_to c, [])) /\
    Resolve (of_nmtLeafNode leaf520) ["0"%string] = Ret (Err InvalidPathLeaf).
Proof.
  apply (ResolveLink_leaf_promoted leaf520 []). vm_compute. discriminate.
Defined.

(** X6.  [CidFromNamespacedSha256] is injective: two hashes with the same
    identifier are the same hash. *)
Theorem CidFromNamespacedSha256_inj (h1 h2 : bytes) (c : cid.Cid) :
  CidFromNamespacedSha256 h1 = Ok c ->
  CidFromNamespacedSha256 h2 = Ok c ->
  h1 = h2.
Proof.
  intros H1 H2.
  destruct (Z.eq_dec (len h1) nmtHashSize) as [E1 | E1];
    [| rewrite CidFromNamespacedSha256_err in H1 by assumption; discriminate].
  destruct (Z.eq_dec (len h2) nmtHashSize) as [E2 | E2];
    [| rewrite CidFromNamespacedSha256_err in H2 by assumption; discriminate].
  rewrite CidFromNamespacedSha256_ok in H1, H2 by assumption.
  rewrite <- H2 in H1. injection H1 as H1. exact H1.
Qed.

Lemma CidFromNamespacedSha256_inj_witness :
  CidFromNamespacedSha256 zeroHash = Ok (cid.mkCid (cidHeader ++ mhPrefix ++ zeroHash)) /\
  zeroHash = zeroHash.
Proof.
  split; [reflexivity |].
  apply (CidFromNamespacedSha256_inj zeroHash zeroHash
           (cid.mkCid (cidHeader ++ mhPrefix ++ zeroHash))); reflexivity.
Defined.

(** ** Nodes that come from blocks *)

Section decoded.

Variable ShareSize : Z.

Lemma decodeBlock_inv (block : blocks.Block buffer) (nd : Node buffer) :
  decodeBlock ShareSize block = Ok nd ->
  base nd = mkNode block /\
  ((nd = of_nmtNode (mkNode block) /\ len (elems (blocks.RawData block)) = nmtHashSize * 2) \/
   (nd = of_nmtLeafNode (mkLeaf (mkNode block)) /\
    len (elems (blocks.RawData block)) = NamespaceSize + ShareSize)).
Proof.
  unfold decodeBlock.
  destruct (Z.eqb_spec (len (elems (blocks.RawData block))) (nmtHashSize * 2)) as [Hi | Hi];
    [| destruct (Z.eqb_spec (len (elems (blocks.RawData block))) (NamespaceSize + ShareSize))
         as [Hl | Hl]];
    intros H; inversion H; subst; auto.
Qed.

(** X7.  A node that [decodeBlock] returns does not panic: [Links] returns
    on it, with two links for an inner node and none for a leaf, and
    [Resolve] returns on every non-empty path. *)
Theorem decodeBlock_no_panic (block : blocks.Block buffer) (nd : Node buffer)
        (path : list string) :
  decodeBlock ShareSize block = Ok nd ->
  path <> [] ->
  (exists ls, Links nd = Ret ls /\
              length ls = match nd with of_nmtNode _ => 2%nat | of_nmtLeafNode _ => 0%nat end) /\
  (exists r, Resolve nd path = Ret r).
Proof.
  intros Hd Hp. destruct (decodeBlock_inv block nd Hd) as [_ [[-> H96] | [-> _]]].
  - split; [eexists; split; [apply nmtNode_Links_full, H96 | reflexivity] |].
    destruct path as [| s rest]; [contradiction |]. cbn [Resolve].
    assert (Hge : nmtHashSize <= len (elems (RawData (mkNode block))))
      by (unfold RawData; cbn [Block]; rewrite nmtHashSize_eq in *; lia).
    destruct (String.eqb_spec s "0") as [-> | H0];
      [rewrite nmtNode_Resolve_0_ge by assumption; eauto |].
    destruct (String.eqb_spec s "1") as [-> | H1].
    + rewrite nmtNode_Resolve_1_ge by assumption.
      destruct (CidFromNamespacedSha256 _); eauto.
    + rewrite nmtNode_Resolve_cons.
      destruct (String.eqb_spec s "0"); [contradiction |].
      destruct (String.eqb_spec s "1"); [contradiction |]. eauto.
  - split; [exists []; split; reflexivity |]. cbn. eauto.
Qed.

(** X8.  When [GetNode] succeeds, the getter returned a block and the node
    is that block as it came (its identifier is the block's, which is not
    compared with the requested one, and its bytes are the block's), of one
    of the two sizes. *)
Theorem GetNode_ok_inv (bGetter : cid.Cid -> result (blocks.Block buffer))
        (root : cid.Cid) (nd : Node buffer) :
  GetNode ShareSize bGetter root = Ok nd ->
  exists block,
    bGetter root = Ok block /\
    Cid (base nd) = blocks.Cid block /\
    RawData (base nd) = blocks.RawData block /\
    ((nd = of_nmtNode (mkNode block) /\ len (elems (blocks.RawData block)) = nmtHashSize * 2) \/
     (nd = of_nmtLeafNode (mkLeaf (mkNode block)) /\
      len (elems (blocks.RawData block)) = NamespaceSize + ShareSize)).
Proof.
  unfold GetNode. destruct (bGetter root) as [block | err].
  - intros Hd. destruct (decodeBlock_inv block nd Hd) as [Hb Hcase].
    exists block. rewrite Hb. auto.
  - destruct (errors_As_ErrNotFoundPtr err); discriminate.
Qed.

End decoded.

Lemma decodeBlock_no_panic_witness :
  (exists ls, Links (of_nmtNode inner1) = Ret ls /\ length ls = 2%nat) /\
  (exists r, Resolve (of_nmtNode inner1) ["7"%string] = Ret r).
Proof.
  apply (decodeBlock_no_panic 512 (Block inner1) (of_nmtNode inner1) ["7"%string]).
  - reflexivity.
  - discriminate.
Defined.

Lemma GetNode_ok_inv_witness :
  exists block,
    getter1 cid.Undef = Ok block /\
    Cid (base (of_nmtLeafNode leaf520)) = blocks.Cid block /\
    RawData (base (of_nmtLeafNode leaf520)) = blocks.RawData block /\
    ((of_nmtLeafNode leaf520 = of_nmtNode (mkNode block) /\
      len (elems (blocks.RawData block)) = nmtHashSize * 2) \/
     (of_nmtLeafNode leaf520 = of_nmtLeafNode (mkLeaf (mkNode block)) /\
      len (elems (blocks.RawData block)) = NamespaceSize + 512)).
Proof.
  apply (GetNode_ok_inv 512 getter1 cid.Undef (of_nmtLeafNode leaf520)). reflexivity.
Defined.

(** ** Sampling: bounds and decoding *)

Lemma index_out_of_range {A : Type} (s : list A) (i : Z) :
  ~ (0 <= i < len s) -> index s i = Panic (IndexOutOfRange i (len s)).
Proof.
  intros H. unfold index.
  destruct (Z.ltb_spec i 0); [reflexivity |].
  destruct (Z.leb_spec (len s) i); [reflexivity | lia].
Qed.

Lemma index_nth {A : Type} (s : list A) (i : Z) (a : A) :
  0 <= i -> nth_error s (Z.to_nat i) = Some a -> index s i = Ret a.
Proof.
  intros Hi Hn.
  assert (Hlt : i < len s).
  { assert (H : (Z.to_nat i < length s)%nat)
      by (apply nth_error_Some; rewrite Hn; discriminate).
    unfold len. lia. }
  destruct (index_in_range s i (conj Hi Hlt)) as (a' & Hn' & Hidx).
  congruence.
Qed.

Section sampling_bounds.

Variable Rand : Type.
Variable Intn : Z -> Rand -> Z * Rand.

(** X9.  [Translate] panics with an index out of range when the index of
    the drawn orientation is out of range: [col] on a draw of 0, [row]
    otherwise; the random source has been drawn from all the same. *)
Theorem Translate_out_of_range (dah : da.DataAvailabilityHeader) (row col : Z) (g : Rand) :
  (fst (Intn 2 g) = 0 ->
   ~ (0 <= col < len (da.ColumnRoots dah)) ->
   Translate Rand Intn dah row col g
   = (Panic (IndexOutOfRange col (len (da.ColumnRoots dah))), snd (Intn 2 g))) /\
  (fst (Intn 2 g) <> 0 ->
   ~ (0 <= row < len (da.RowsRoots dah)) ->
   Translate Rand Intn dah row col g
   = (Panic (IndexOutOfRange row (len (da.RowsRoots dah))), snd (Intn 2 g))).
Proof.
  unfold Translate. destruct (Intn 2 g) as [r g']. cbn [fst snd]. split.
  - intros -> H. cbn. rewrite index_out_of_range by assumption. reflexivity.
  - intros Hr H. destruct (Z.eqb_spec r 0); [contradiction |].
    rewrite index_out_of_range by assumption. reflexivity.
Qed.

(** X10.  [Translate] reads the root of the drawn orientation only.  When
    that root exists and is a namespaced hash, [Translate] returns an
    identifier that decodes to it, with the other coordinate as given:
    neither the other coordinate nor the roots of the other orientation
    are looked at. *)
Theorem Translate_decodes (dah : da.DataAvailabilityHeader) (row col : Z) (g : Rand)
        (root : bytes) :
  (if fst (Intn 2 g) =? 0
   then 0 <= col /\ nth_error (da.ColumnRoots dah) (Z.to_nat col) = Some root
   else 0 <= row /\ nth_error (da.RowsRoots dah) (Z.to_nat row) = Some root) ->
  len root = nmtHashSize ->
  exists c,
    Translate Rand Intn dah row col g
    = (Ret (c, if fst (Intn 2 g) =? 0 then row else col), snd (Intn 2 g)) /\
    NamespacedSha256FromCID c = Ret root.
Proof.
  intros Hsel Hlen. exists (cid.mkCid (cidHeader ++ mhPrefix ++ root)).
  split; [| apply decode_encoded].
  unfold Translate. destruct (Intn 2 g) as [r g']. cbn [fst snd] in *.
  destruct (r =? 0); destruct Hsel as [Hi Hn];
    rewrite (index_nth _ _ _ Hi Hn); cbn [obind];
    rewrite MustCidFromNamespacedSha256_eq by assumption; reflexivity.
Qed.

End sampling_bounds.

Lemma Translate_decodes_witness :
  exists c,
    Translate (list Z) draws dah2 (-5) 1 [0]
    = (Ret (c, if fst (draws 2 [0]) =? 0 then -5 else 1), snd (draws 2 [0])) /\
    NamespacedSha256FromCID c = Ret (replicate 48 x03).
Proof.
  apply (Translate_decodes (list Z) draws dah2 (-5) 1 [0] (replicate 48 x03)).
  - split; [lia | reflexivity].
  - reflexivity.
Defined.

Example Translate_row_out_of_range :
  fst (Translate (list Z) draws dah2 2 0 [1]) = Panic (IndexOutOfRange 2 2).
Proof. reflexivity. Qed.

(** ** Copies: what the store keeps *)

Section copy_frame.

Variable Debug : bool.
Variable Sum : cid.Cid -> bytes -> result cid.Cid.

Lemma nmtNode_Copy_store (n : nmtNode mem.slice) (st : mem.store) :
  exists a,
    snd (nmtNode_Copy Debug Sum n st)
    = <[fresh (dom st) := a]> (<[fresh (dom st) := replicate (mem.slen (RawData n)) x00]> st).
Proof.
  unfold nmtNode_Copy, mem.make, mem.copy. cbn [mem.arr mem.off mem.slen snd].
  rewrite lookup_insert_eq. cbn [snd]. eauto.
Qed.

(** X11.  [Copy] allocates one array and writes into no other: after it,
    the store has the arrays it had, with the contents they had, and one
    more; and this holds whether [Copy] returns or panics. *)
Theorem Copy_frame (nd : Node mem.slice) (st : mem.store) :
  let st' := snd (Copy Debug Sum nd st) in
  dom st' = {[fresh (dom st)]} ∪ dom st /\
  (fresh (dom st) ∉ dom st) /\
  (forall k, k ∈ dom st -> st' !! k = st !! k).
Proof.
  intros st'. subst st'.
  assert (E : Copy Debug Sum nd st = nmtNode_Copy Debug Sum (base nd) st)
    by (destruct nd; reflexivity).
  rewrite E. destruct (nmtNode_Copy_store (base nd) st) as [a ->].
  split; [| split].
  - rewrite !dom_insert_L, union_assoc_L, union_idemp_L. reflexivity.
  - apply is_fresh.
  - intros k Hk. rewrite !lookup_insert_ne; [reflexivity | |];
      intros <-; exact (is_fresh (dom st) Hk).
Qed.

(** X12.  [Copy] never returns a leaf: whatever the node, the node it
    returns is an [nmtNode] with the identifier of the original over a
    buffer of the same length in the new array.  So the copy of a leaf
    answers [Tree] as an inner node does. *)
Theorem Copy_returns_nmtNode (nd nd' : Node mem.slice) (st : mem.store) :
  fst (Copy Debug Sum nd st) = Ret nd' ->
  exists n',
    nd' = of_nmtNode n' /\
    Cid n' = Cid (base nd) /\
    RawData n' = mem.mkSlice (fresh (dom st)) 0 (mem.slen (RawData (base nd)))
                             (mem.slen (RawData (base nd))) /\
    forall st'', Tree (of_nmtNode (view st'' n')) "" (-1) = Ret ["0"%string; "1"%string].
Proof.
  assert (E : Copy Debug Sum nd st = nmtNode_Copy Debug Sum (base nd) st)
    by (destruct nd; reflexivity).
  rewrite E. clear E. generalize (base nd). intros n.
  unfold nmtNode_Copy, mem.make, mem.copy. cbn [mem.arr mem.off mem.slen fst snd].
  rewrite lookup_insert_eq. cbn [fst].
  unfold newNMTNode.
  destruct (NewBlockWithCid _ _ _ _ _) as [b |] eqn:Hb; [| discriminate].
  cbn [obind]. intros H. injection H as <-.
  exists (mkNode b). split; [reflexivity |].
  unfold NewBlockWithCid in Hb.
  assert (b = blocks.mkBlock (Cid n)
                (mem.mkSlice (fresh (dom st)) 0 (mem.slen (RawData n)) (mem.slen (RawData n)))).
  { destruct Debug; [| congruence].
    destruct (Sum _ _); [| discriminate].
    destruct (decide _); congruence. }
  subst b. repeat split.
Qed.

End copy_frame.

Lemma Copy_returns_nmtNode_witness :
  exists nd' n',
    fst (Copy false (fun c _ => Ok c) leaf1 store1) = Ret nd' /\
    nd' = of_nmtNode n' /\
    Cid n' = Cid (base leaf1) /\
    RawData n' = mem.mkSlice (fresh (dom store1)) 0 (mem.slen (RawData (base leaf1)))
                             (mem.slen (RawData (base leaf1))) /\
    forall st'', Tree (of_nmtNode (view st'' n')) "" (-1) = Ret ["0"%string; "1"%string].
Proof.
  eexists.
  assert (H : fst (Copy false (fun c _ => Ok c) leaf1 store1)
              = Ret (of_nmtNode (mkNode (blocks.mkBlock cid.Undef
                       (mem.mkSlice (fresh (dom store1)) 0 3 3)))))
    by reflexivity.
  destruct (Copy_returns_nmtNode false (fun c _ => Ok c) leaf1 _ store1 H)
    as (n' & H1 & H2 & H3 & H4).
  exists n'. auto.
Defined.
